(** * chantbot: the anonymous-posting handler of [bot.py]

    A shallow embedding of [ConfirmationView] and [on_message].  The calls
    the handler makes on the chat platform (sending a DM, editing the
    prompt, reading an attachment, posting to a channel, printing a log
    line) are recorded in a trace, each together with what the platform
    answered; the answers come from an environment that may look at
    everything that happened before. *)

From Stdlib Require Import ZArith List String Ascii Bool Lia DecimalString.
Import ListNotations.
Local Open Scope list_scope.
Local Open Scope string_scope.

(** ** Data *)

(** [discord.User]: two users are equal when their ids are. *)
Record User := {
  user_id : Z;
  user_name : string;
  display_avatar : option string   (* the asset's [url], when there is an asset *)
}.

Definition user_eqb (a b : User) : bool := (user_id a =? user_id b)%Z.

(** [discord.Attachment], as far as the handler looks at it. *)
Record Attachment := {
  att_url : string;
  att_filename : string
}.

(** A channel found by [bot.get_channel]. *)
Record Channel := {
  channel_id : Z;
  channel_name : string
}.

(** [discord.Message]: the user's DM as well as the messages the bot sent. *)
Record Message := {
  author : User;
  content : string;
  attachments : list Attachment;
  created_at : Z;
  in_dm : bool;          (* isinstance(message.channel, discord.DMChannel) *)
  jump_url : string
}.

(** [discord.File(io.BytesIO(image_bytes), filename=...)]. *)
Record File := {
  file_bytes : list Byte.byte;
  file_filename : string
}.

Record EmbedField := {
  field_name : string;
  field_value : string;
  field_inline : bool
}.

Record EmbedAuthor := {
  author_name : string;
  author_icon_url : option string
}.

Record Embed := {
  title : option string;
  description : option string;
  color : Z;
  timestamp : option Z;
  embed_author : option EmbedAuthor;
  fields : list EmbedField;
  footer : option string
}.

Definition Color_blue : Z := 0x3498db.
Definition Color_orange : Z := 0xe67e22.

Definition new_Embed (t d : option string) (c : Z) (ts : option Z) : Embed :=
  {| title := t; description := d; color := c; timestamp := ts;
     embed_author := None; fields := []; footer := None |}.

Definition set_author (e : Embed) (name : string) (icon_url : option string) : Embed :=
  {| title := title e; description := description e; color := color e;
     timestamp := timestamp e;
     embed_author := Some {| author_name := name; author_icon_url := icon_url |};
     fields := fields e; footer := footer e |}.

Definition add_field (e : Embed) (name value : string) (inline : bool) : Embed :=
  {| title := title e; description := description e; color := color e;
     timestamp := timestamp e; embed_author := embed_author e;
     fields := (fields e ++
       [{| field_name := name; field_value := value; field_inline := inline |}])%list;
     footer := footer e |}.

Definition set_footer (e : Embed) (text : string) : Embed :=
  {| title := title e; description := description e; color := color e;
     timestamp := timestamp e; embed_author := embed_author e;
     fields := fields e; footer := Some text |}.

(** ** Exceptions

    The classes the handler tells apart.  [Forbidden] and [NotFound] are
    subclasses of [discord.HTTPException]; everything here is an
    [Exception], so every [except Exception] clause catches it.  (What is
    not an [Exception], such as the cancellation of the task, is not an
    error of a call and is left out.) *)
Inductive exn_class := Forbidden | NotFound | HTTPException | OtherException.

Record exn := {
  exn_cls : exn_class;
  exn_str : string        (* what an f-string shows for [{e}] *)
}.

Definition is_Forbidden (e : exn) : bool :=
  match exn_cls e with Forbidden => true | _ => false end.

Definition is_NotFound (e : exn) : bool :=
  match exn_cls e with NotFound => true | _ => false end.

Definition is_HTTPException (e : exn) : bool :=
  match exn_cls e with
  | Forbidden | NotFound | HTTPException => true
  | OtherException => false
  end.

(** ** Python truthiness and string formatting

    A string is true when it is not empty, a list when it is not empty.
    A [discord.Message] and a channel object are always true, so
    [if view.message] and [if not anon_channel] test for [None] only;
    they are options here. *)

Definition str_true (s : string) : bool := negb (s =? EmptyString).

Definition list_true {A} (l : list A) : bool :=
  match l with [] => false | _ :: _ => true end.

Definition str_Z (z : Z) : string := NilZero.string_of_int (Z.to_int z).
Definition str_nat (n : nat) : string := NilZero.string_of_uint (Nat.to_uint n).

Definition newline : string := String (ascii_of_nat 10) EmptyString.

(** [sep.join(l)] *)
Definition join (sep : string) (l : list string) : string := String.concat sep l.

(** ** Calls on the platform, and their trace *)

Inductive event :=
| EvAuthorSend (to : User) (text : string) (with_view : bool) (r : exn + Message)
    (* await message.author.send(text [, view=view]) *)
| EvWait (r : option bool)
    (* await view.wait(); r is view.confirmed_post afterwards *)
| EvRead (a : Attachment) (r : exn + list Byte.byte)
    (* await attachment.read() *)
| EvEdit (target : Message) (text : string) (with_view : bool) (r : exn + unit)
    (* await <message>.edit(content=text, view=None | self) *)
| EvResponseEdit (actor : User) (text : string) (r : exn + unit)
    (* await interaction.response.edit_message(content=text, view=self) *)
| EvAnonSend (ch : Channel) (e : option Embed) (files : list File) (r : exn + Message)
    (* await anon_channel.send(embed=e, files=files) *)
| EvModLogSend (ch : Channel) (e : Embed) (r : exn + Message)
    (* await mod_log_channel.send(embed=e) *)
| EvPrint (line : string)
| EvProcessCommands (m : Message).
    (* await bot.process_commands(message) *)

Definition trace := list event.

(** What the world outside the handler answers.  Every answer may depend
    on the calls made so far. *)
Record Env := {
  bot_user : User;
  ANONYMOUS_CHANNEL_ID : Z;
  MOD_LOG_CHANNEL_ID : Z;
  get_channel : Z -> option Channel;
  author_send : trace -> User -> string -> bool -> exn + Message;
  view_wait : trace -> option bool;
  attachment_read : trace -> Attachment -> exn + list Byte.byte;
  message_edit : trace -> Message -> string -> bool -> exn + unit;
  response_edit_message : trace -> User -> string -> exn + unit;
  channel_send : trace -> Channel -> option Embed -> list File -> exn + Message
}.

(** ** The monad: history in, new events and a result (or a raised
    exception) out *)

Definition M (A : Type) : Type := trace -> trace * (exn + A).

Definition ret {A} (a : A) : M A := fun _ => ([], inr a).

Definition bind {A B} (c : M A) (k : A -> M B) : M B :=
  fun h =>
    match c h with
    | (s, inl e) => (s, inl e)
    | (s, inr a) =>
        match k a (h ++ s)%list with
        | (s', r) => ((s ++ s')%list, r)
        end
    end.

Declare Scope bot_scope.
Delimit Scope bot_scope with bot.
Notation "x <- c ;; k" := (bind c (fun x => k))
  (at level 100, c at next level, right associativity) : bot_scope.
Notation "c ;;; k" := (bind c (fun _ => k))
  (at level 100, right associativity) : bot_scope.
Local Open Scope bot_scope.

(** [try: body except <classes>: handler].  [handler e = None] when no
    [except] clause matches [e], which then goes on up. *)
Definition try_except {A} (body : M A) (handler : exn -> option (M A)) : M A :=
  fun h =>
    match body h with
    | (s, inr a) => (s, inr a)
    | (s, inl e) =>
        match handler e with
        | None => (s, inl e)
        | Some k =>
            match k (h ++ s)%list with
            | (s', r) => ((s ++ s')%list, r)
            end
        end
    end.

(** One call: ask the environment, record the call and its answer. *)
Definition call {A} (answer : trace -> exn + A) (ev : exn + A -> event) : M A :=
  fun h => let r := answer h in ([ev r], r).

Definition print (line : string) : M unit := fun _ => ([EvPrint line], inr tt).

(** ** [ConfirmationView] *)

Record View := {
  original_message : Message;      (* the user's DM to be posted *)
  confirmed_post : option bool;    (* None, True (post) or False (cancel) *)
  view_message : option Message;   (* [self.message]: the bot's prompt *)
  children_disabled : bool;        (* both buttons carry [disabled = True] *)
  timeout : Z;
  stopped : bool                   (* [self.stop()] was called *)
}.

(** [__init__] *)
Definition ConfirmationView (original : Message) : View :=
  {| original_message := original; confirmed_post := None;
     view_message := None; children_disabled := false;
     timeout := 300; stopped := false |}.

Definition with_confirmed_post (v : View) (c : option bool) : View :=
  {| original_message := original_message v; confirmed_post := c;
     view_message := view_message v; children_disabled := children_disabled v;
     timeout := timeout v; stopped := stopped v |}.

Definition with_message (v : View) (m : Message) : View :=
  {| original_message := original_message v; confirmed_post := confirmed_post v;
     view_message := Some m; children_disabled := children_disabled v;
     timeout := timeout v; stopped := stopped v |}.

Definition disable_children (v : View) : View :=
  {| original_message := original_message v; confirmed_post := confirmed_post v;
     view_message := view_message v; children_disabled := true;
     timeout := timeout v; stopped := stopped v |}.

Definition stop (v : View) : View :=
  {| original_message := original_message v; confirmed_post := confirmed_post v;
     view_message := view_message v; children_disabled := children_disabled v;
     timeout := timeout v; stopped := true |}.

Record Interaction := {
  interaction_user : User
}.

(** The two buttons of the view. *)
Inductive item := confirm_post_anon | cancel_post_anon.

(** Ensure only the original message author can interact with the
    buttons. *)
Definition interaction_check (self : View) (interaction : Interaction) : bool :=
  (user_id (interaction_user interaction)
   =? user_id (author (original_message self)))%Z.

(** A Python [return] leaves the handler at once; otherwise control falls
    through to [bot.process_commands] at the end of [on_message]. *)
Inductive flow := Returned | FellThrough.

(** ** Notices *)

Definition rejection_notice : string :=
  "Your message must contain text or an attachment to be posted.".

Definition confirmation_text (atts : list Attachment) : string :=
  "Do you want to post the content anonymously?" ++
  (if list_true atts
   then newline ++ "(You have " ++ str_nat (List.length atts) ++ " attachment(s))"
   else EmptyString).

Definition timed_out_notice : string :=
  "This anonymous post request has timed out.".
Definition processing_notice : string := "Processing your request...".
Definition cancelled_notice : string := "Request cancelled.".

Definition no_channel_notice : string :=
  "Failed to post: Anonymous channel not configured correctly. Admin notified.".

Definition skipped_notice (a : Attachment) : string :=
  "Sorry, I couldn't process the attachment: " ++ att_filename a ++
  ". It will be skipped.".

Definition nothing_posted_notice : string :=
  "Your message was empty or attachments could not be processed. Nothing was posted.".

Definition success_notice (anon_channel : Channel) : string :=
  "Your message has been posted anonymously to #" ++ channel_name anon_channel ++ "!".

Definition permission_notice : string :=
  "Failed to post. Bot permission error in the anonymous channel. Admin notified.".
Definition network_notice : string :=
  "Failed to post. A network error occurred. Please try again.".
Definition unexpected_notice : string :=
  "Failed to post due to an unexpected error. Admin has been notified.".

(** The notice of the outer [except] clause that catches [e]. *)
Definition failure_notice (e : exn) : string :=
  if is_Forbidden e then permission_notice
  else if is_HTTPException e then network_notice
  else unexpected_notice.

(** ** Log lines *)

Definition timeout_edit_error_line (e : exn) : string :=
  "Error editing message on ConfirmationView timeout: " ++ exn_str e.

Definition anon_channel_missing_line (id : Z) : string :=
  "ERROR: Anonymous channel " ++ str_Z id ++ " not found during post attempt.".

Definition read_error_line (a : Attachment) (message : Message) (e : exn) : string :=
  "ERROR: Failed to read attachment '" ++ att_filename a ++ "' from user "
  ++ str_Z (user_id (author message)) ++ ": " ++ exn_str e.

Definition mod_channel_missing_line (id : Z) (message : Message) : string :=
  "ERROR: Mod log channel " ++ str_Z id ++ " not found. Post by "
  ++ str_Z (user_id (author message)) ++ " was not logged.".

Definition mod_forbidden_line (mod_log_channel : Channel) : string :=
  "ERROR: Bot lacks Send Messages/Embed Links permission in Mod Log Channel #"
  ++ channel_name mod_log_channel ++ ".".

Definition mod_http_line (message : Message) (e : exn) : string :=
  "ERROR: Failed to send log to mod log channel for post by "
  ++ str_Z (user_id (author message)) ++ ": " ++ exn_str e.

Definition anon_forbidden_line (anon_channel : Channel) : string :=
  "ERROR: Bot lacks Send Messages/Embed Links/Attach Files permission in Anonymous Channel #"
  ++ channel_name anon_channel ++ ".".

Definition anon_http_line (message : Message) (e : exn) : string :=
  "ERROR: Network error occurred sending to anonymous channel for "
  ++ str_Z (user_id (author message)) ++ ": " ++ exn_str e.

Definition anon_unexpected_line (message : Message) (e : exn) : string :=
  "CRITICAL: An unexpected error occurred during anonymous posting for "
  ++ str_Z (user_id (author message)) ++ ": " ++ exn_str e.

(** The line printed by the outer [except] clause that catches [e]. *)
Definition failure_line (anon_channel : Channel) (message : Message) (e : exn) : string :=
  if is_Forbidden e then anon_forbidden_line anon_channel
  else if is_HTTPException e then anon_http_line message e
  else anon_unexpected_line message e.

(** ** The audit record *)

Fixpoint attachment_links_from (i : nat) (atts : list Attachment) : list string :=
  match atts with
  | [] => []
  | att :: rest =>
      ("[Attachment " ++ str_nat (i + 1) ++ "](" ++ att_url att ++ ") (`"
       ++ att_filename att ++ "`)")
      :: attachment_links_from (S i) rest
  end.

(** [[f"..." for i, att in enumerate(attachments)]] *)
Definition attachment_links (atts : list Attachment) : list string :=
  attachment_links_from 0 atts.

Definition jump_link (posted : Message) (anon_channel : Channel) : string :=
  "[Jump to Message](" ++ jump_url posted ++ ") in #" ++ channel_name anon_channel.

Definition log_embed_for (original : Message) (anon_channel : Channel)
    (posted_anon_message : option Message) : Embed :=
  let log_embed :=
    new_Embed (Some "Anonymous Post Logged") None Color_orange
              (Some (created_at original)) in
  let log_embed :=
    set_author log_embed
      (user_name (author original) ++ " (ID: " ++ str_Z (user_id (author original)) ++ ")")
      (display_avatar (author original)) in
  let log_embed :=
    add_field log_embed "Original Content"
      (if str_true (content original) then content original
       else "*(No text content)*") false in
  let log_embed :=
    if list_true (attachments original)
    then add_field log_embed "Original Attachments"
           (join newline (attachment_links (attachments original))) false
    else log_embed in
  match posted_anon_message with
  | Some posted =>
      add_field log_embed "Posted Message" (jump_link posted anon_channel) false
  | None =>
      set_footer log_embed
        ("Posted to: #" ++ channel_name anon_channel ++ " (Error retrieving jump link)")
  end.

(** ** The handlers *)

Section Handlers.

Variable env : Env.

(** *** The callbacks of [ConfirmationView]

    A callback changes the view in place, so it hands back the view as it
    stands when the callback ends, also when it ends by an exception. *)

Definition callback_result : Type := trace * View * (exn + unit).

(** Handles view timeout: disables buttons and updates the confirmation
    message. *)
Definition on_timeout (self : View) (h : trace) : callback_result :=
  let self := disable_children self in
  let edited : trace * (exn + unit) :=
    try_except
      (match view_message self with
       | Some msg =>
           call (fun h => message_edit env h msg timed_out_notice true)
                (EvEdit msg timed_out_notice true)
       | None => ret tt
       end)
      (fun e =>
         if is_NotFound e then Some (ret tt)                 (* pass *)
         else Some (print (timeout_edit_error_line e)))
      h in
  match edited with
  | (s, inr _) => (s, stop self, inr tt)
  | (s, inl e) => (s, self, inl e)
  end.

(** Handles the 'Post Anonymously' button click. *)
Definition confirm_button (self : View) (interaction : Interaction) (h : trace)
    : callback_result :=
  let self := with_confirmed_post self (Some true) in
  let self := disable_children self in
  let r := response_edit_message env h (interaction_user interaction)
             processing_notice in
  let s := [EvResponseEdit (interaction_user interaction) processing_notice r] in
  match r with
  | inr _ => (s, stop self, inr tt)
  | inl e => (s, self, inl e)
  end.

(** Handles the 'Cancel' button click. *)
Definition cancel_button (self : View) (interaction : Interaction) (h : trace)
    : callback_result :=
  let self := with_confirmed_post self (Some false) in
  let self := disable_children self in
  let r := response_edit_message env h (interaction_user interaction)
             cancelled_notice in
  let s := [EvResponseEdit (interaction_user interaction) cancelled_notice r] in
  match r with
  | inr _ => (s, stop self, inr tt)
  | inl e => (s, self, inl e)
  end.

Definition callback (it : item) : View -> Interaction -> trace -> callback_result :=
  match it with
  | confirm_post_anon => confirm_button
  | cancel_post_anon => cancel_button
  end.

(** How [discord.ui.View] delivers a click on a button of the view: it
    awaits [interaction_check] first and runs the button's callback only
    when the answer is [True]; otherwise the click is dropped and the bot
    answers nothing. *)
Definition scheduled_task (self : View) (it : item) (interaction : Interaction)
    (h : trace) : callback_result :=
  if interaction_check self interaction
  then callback it self interaction h
  else ([], self, inr tt).

(** *** [on_message] *)

Definition send_to_author (message : Message) (text : string) (with_view : bool)
    : M Message :=
  call (fun h => author_send env h (author message) text with_view)
       (EvAuthorSend (author message) text with_view).

(** [if view.message: await view.message.edit(content=text, view=None)]
    [else: await message.author.send(text)] *)
Definition edit_or_send (view : View) (message : Message) (text : string) : M unit :=
  match view_message view with
  | Some prompt =>
      call (fun h => message_edit env h prompt text false)
           (EvEdit prompt text false)
  | None => send_to_author message text false ;;; ret tt
  end.

(** Lines 169-177: the loop over the attachments. *)
Fixpoint read_attachments (message : Message) (atts : list Attachment)
    (files_to_send : list File) : M (list File) :=
  match atts with
  | [] => ret files_to_send
  | attachment :: rest =>
      files_to_send <-
        try_except
          (image_bytes <-
             call (fun h => attachment_read env h attachment) (EvRead attachment) ;;
           ret (files_to_send ++
                [{| file_bytes := image_bytes;
                    file_filename := att_filename attachment |}])%list)
          (fun e => Some (
             print (read_error_line attachment message e) ;;;
             send_to_author message (skipped_notice attachment) false ;;;
             ret files_to_send)) ;;
      read_attachments message rest files_to_send
  end.

Definition anon_embed_for (embed_description : string) : Embed :=
  new_Embed None
    (if str_true embed_description then Some embed_description else None)
    Color_blue None.

(** Lines 192-196: post to the anonymous channel. *)
Definition post_anonymously (anon_channel : Channel) (embed_description : string)
    (files_to_send : list File) : M (option Message) :=
  let anon_embed := anon_embed_for embed_description in
  if list_true files_to_send then
    let e := if str_true embed_description then Some anon_embed else None in
    posted <- call (fun h => channel_send env h anon_channel e files_to_send)
                   (EvAnonSend anon_channel e files_to_send) ;;
    ret (Some posted)
  else if str_true embed_description then
    posted <- call (fun h => channel_send env h anon_channel (Some anon_embed) [])
                   (EvAnonSend anon_channel (Some anon_embed) []) ;;
    ret (Some posted)
  else ret None.

(** Lines 205-238: log to the moderator channel. *)
Definition log_to_moderators (view : View) (message : Message)
    (anon_channel : Channel) (mod_log_channel : option Channel)
    (posted_anon_message : option Message) : M unit :=
  match mod_log_channel with
  | None =>
      print (mod_channel_missing_line (MOD_LOG_CHANNEL_ID env) message)
  | Some mod_channel =>
      let log_embed :=
        log_embed_for (original_message view) anon_channel posted_anon_message in
      try_except
        (call (fun h => channel_send env h mod_channel (Some log_embed) [])
              (EvModLogSend mod_channel log_embed) ;;;
         ret tt)
        (fun e =>
           if is_Forbidden e then
             Some (print (mod_forbidden_line mod_channel))
           else if is_HTTPException e then
             Some (print (mod_http_line message e))
           else None)
  end.

(** Lines 191-252: the outer [try] and its three [except] clauses. *)
Definition relay (view : View) (message : Message) (anon_channel : Channel)
    (mod_log_channel : option Channel) (embed_description : string)
    (files_to_send : list File) : M flow :=
  try_except
    (posted_anon_message <-
       post_anonymously anon_channel embed_description files_to_send ;;
     edit_or_send view message (success_notice anon_channel) ;;;
     log_to_moderators view message anon_channel mod_log_channel
       posted_anon_message ;;;
     ret FellThrough)
    (fun e => Some (
       (if is_Forbidden e then print (anon_forbidden_line anon_channel)
        else if is_HTTPException e then print (anon_http_line message e)
        else print (anon_unexpected_line message e)) ;;;
       edit_or_send view message (failure_notice e) ;;;
       ret FellThrough)).

(** Lines 151-252: the user pressed 'Post Anonymously'. *)
Definition confirmed (view : View) (message : Message) : M flow :=
  let anon_channel := get_channel env (ANONYMOUS_CHANNEL_ID env) in
  let mod_log_channel := get_channel env (MOD_LOG_CHANNEL_ID env) in
  match anon_channel with
  | None =>
      print (anon_channel_missing_line (ANONYMOUS_CHANNEL_ID env)) ;;;
      edit_or_send view message no_channel_notice ;;;
      ret Returned
  | Some anon_channel =>
      let embed_description := content (original_message view) in
      files_to_send <-
        (if list_true (attachments (original_message view))
         then read_attachments message (attachments (original_message view)) []
         else ret []) ;;
      if negb (str_true embed_description) && negb (list_true files_to_send) then
        edit_or_send view message nothing_posted_notice ;;;
        ret Returned
      else
        relay view message anon_channel mod_log_channel embed_description
              files_to_send
  end.

(** Lines 131-261: a DM. *)
Definition submission (message : Message) : M flow :=
  if negb (str_true (content message)) && negb (list_true (attachments message))
  then
    send_to_author message rejection_notice false ;;;
    ret Returned
  else
    let view := ConfirmationView message in
    sent_confirmation_msg <-
      send_to_author message (confirmation_text (attachments message)) true ;;
    let view := with_message view sent_confirmation_msg in
    choice <- (fun h => let r := view_wait env h in ([EvWait r], inr r)) ;;
    let view := with_confirmed_post view choice in
    match confirmed_post view with
    | Some true => confirmed view message
    | Some false => ret FellThrough     (* cancelled: pass *)
    | None => ret FellThrough           (* timeout: pass *)
    end.

(** [await bot.process_commands(message)].  The bot registers no command:
    the call is recorded and nothing comes of it. *)
Definition process_commands (message : Message) : M unit :=
  fun _ => ([EvProcessCommands message], inr tt).

Definition on_message (message : Message) : M unit :=
  if user_eqb (author message) (bot_user env) then ret tt
  else
    fl <- (if in_dm message then submission message else ret FellThrough) ;;
    match fl with
    | Returned => ret tt
    | FellThrough => process_commands message
    end.

End Handlers.

(** ** Reading a trace *)

Fixpoint pick {A} (f : event -> option A) (t : trace) : list A :=
  match t with
  | [] => []
  | ev :: t' =>
      match f ev with
      | Some a => a :: pick f t'
      | None => pick f t'
      end
  end.

Definition as_read (ev : event) : option (Attachment * (exn + list Byte.byte)) :=
  match ev with EvRead a r => Some (a, r) | _ => None end.

Definition as_author_send (ev : event) : option (string * bool * (exn + Message)) :=
  match ev with EvAuthorSend _ text v r => Some (text, v, r) | _ => None end.

Definition as_edit (ev : event) : option (Message * string * (exn + unit)) :=
  match ev with EvEdit target text _ r => Some (target, text, r) | _ => None end.

Definition as_anon_send (ev : event)
    : option (Channel * option Embed * list File * (exn + Message)) :=
  match ev with EvAnonSend ch e fs r => Some (ch, e, fs, r) | _ => None end.

Definition as_mod_log_send (ev : event) : option (Channel * Embed * (exn + Message)) :=
  match ev with EvModLogSend ch e r => Some (ch, e, r) | _ => None end.

Definition as_wait (ev : event) : option (option bool) :=
  match ev with EvWait r => Some r | _ => None end.

Definition as_print (ev : event) : option string :=
  match ev with EvPrint line => Some line | _ => None end.

(** The attachment retrievals of a trace, the DMs to the submitter, the
    edits of a message, the posts to the anonymous channel, the audit
    records sent to the moderators' channel, the answers of the
    confirmation view, the log lines. *)
Definition reads (t : trace) := pick as_read t.
Definition author_sends (t : trace) := pick as_author_send t.
Definition edits (t : trace) := pick as_edit t.
Definition anon_sends (t : trace) := pick as_anon_send t.
Definition mod_log_sends (t : trace) := pick as_mod_log_send t.
Definition waits (t : trace) := pick as_wait t.
Definition prints (t : trace) := pick as_print t.

Definition delivered {A} (r : exn + A) : bool :=
  match r with inr _ => true | inl _ => false end.

(** The files made from the retrievals that succeeded, and the
    attachments whose retrieval failed, both in the order of retrieval. *)
Fixpoint payloads (rs : list (Attachment * (exn + list Byte.byte))) : list File :=
  match rs with
  | [] => []
  | (a, inr image_bytes) :: rs' =>
      {| file_bytes := image_bytes; file_filename := att_filename a |} :: payloads rs'
  | (_, inl _) :: rs' => payloads rs'
  end.

Fixpoint failures (rs : list (Attachment * (exn + list Byte.byte))) : list Attachment :=
  match rs with
  | [] => []
  | (a, inl _) :: rs' => a :: failures rs'
  | (_, inr _) :: rs' => failures rs'
  end.

(** The notices DMed to the submitter without a view (everything but the
    confirmation prompt). *)
Fixpoint notices (ss : list (string * bool * (exn + Message))) : list string :=
  match ss with
  | [] => []
  | (text, false, _) :: ss' => text :: notices ss'
  | (_, true, _) :: ss' => notices ss'
  end.

(** What became of a submission, as it shows from outside: which answer
    the confirmation view gave and whether a message went out on the
    anonymous channel. *)
Inductive outcome := Pending | Posted | Cancelled | TimedOut | Failed.

Definition publicly_posted (t : trace) : bool :=
  existsb (fun s => delivered (snd s)) (anon_sends t).

Definition submission_outcome (t : trace) : outcome :=
  match waits t with
  | [] => Pending
  | Some true :: _ => if publicly_posted t then Posted else Failed
  | Some false :: _ => Cancelled
  | None :: _ => TimedOut
  end.

(** The events of the loop: retrievals, log lines and notices. *)
Definition loop_event (ev : event) : bool :=
  match ev with
  | EvRead _ _ | EvPrint _ | EvAuthorSend _ _ false _ => true
  | _ => false
  end.

(** The notices that tell the submitter that nothing was posted. *)
Definition is_failure_notice (text : string) : bool :=
  (text =? no_channel_notice) || (text =? nothing_posted_notice)
  || (text =? permission_notice) || (text =? network_notice)
  || (text =? unexpected_notice).

(** ** Sample data *)

Definition the_bot : User :=
  {| user_id := 1; user_name := "chantbot"; display_avatar := None |}.
Definition alice : User :=
  {| user_id := 1001; user_name := "alice";
     display_avatar := Some "https://cdn.example/avatars/1001.png" |}.
Definition mallory : User :=
  {| user_id := 2002; user_name := "mallory"; display_avatar := None |}.

Definition anon_ch : Channel := {| channel_id := 10; channel_name := "anonymous" |}.
Definition mod_ch : Channel := {| channel_id := 20; channel_name := "mod-log" |}.

Definition cat_png : Attachment :=
  {| att_url := "https://cdn.example/att/cat.png"; att_filename := "cat.png" |}.
Definition dog_png : Attachment :=
  {| att_url := "https://cdn.example/att/dog.png"; att_filename := "dog.png" |}.

Definition dm_from (u : User) (text : string) (atts : list Attachment) : Message :=
  {| author := u; content := text; attachments := atts;
     created_at := 1700000000; in_dm := true;
     jump_url := "https://discord.example/channels/@me/7/100" |}.

Definition prompt_msg : Message :=
  {| author := the_bot; content := "Do you want to post the content anonymously?";
     attachments := []; created_at := 1700000001; in_dm := true;
     jump_url := "https://discord.example/channels/@me/7/101" |}.

Definition posted_msg : Message :=
  {| author := the_bot; content := EmptyString; attachments := [];
     created_at := 1700000002; in_dm := false;
     jump_url := "https://discord.example/channels/5/10/555" |}.

Definition boom (c : exn_class) : exn := {| exn_cls := c; exn_str := "boom" |}.

Definition png_bytes : list Byte.byte := [Byte.x89; Byte.x50; Byte.x4e; Byte.x47].

(** An environment whose answers depend on the call only: the view
    answers [choice], channel 10 is the anonymous channel, channel 20
    (when [mod_found]) the moderators' one. *)
Definition sample_env_with (choice : option bool) (mod_found : bool)
    (dm_answer : string -> bool -> exn + Message)
    (read_answer : Attachment -> exn + list Byte.byte)
    (edit_answer : string -> exn + unit)
    (send_answer : Channel -> exn + Message) : Env :=
  {| bot_user := the_bot;
     ANONYMOUS_CHANNEL_ID := 10;
     MOD_LOG_CHANNEL_ID := 20;
     get_channel := fun id =>
       if (id =? 10)%Z then Some anon_ch
       else if ((id =? 20)%Z && mod_found)%bool then Some mod_ch
       else None;
     author_send := fun _ _ text v => dm_answer text v;
     view_wait := fun _ => choice;
     attachment_read := fun _ a => read_answer a;
     message_edit := fun _ _ text _ => edit_answer text;
     response_edit_message := fun _ _ _ => inr tt;
     channel_send := fun _ ch _ _ => send_answer ch |}.

(** The same with a user who confirms. *)
Definition sample_env := sample_env_with (Some true).

(** Everything works, but the user never presses a button. *)
Definition idle_env : Env :=
  sample_env_with None true (fun _ _ => inr prompt_msg) (fun _ => inr png_bytes)
                  (fun _ => inr tt) (fun _ => inr posted_msg).

(** Everything works. *)
Definition fine_env : Env :=
  sample_env true (fun _ _ => inr prompt_msg) (fun _ => inr png_bytes)
             (fun _ => inr tt) (fun _ => inr posted_msg).

(** The first attachment cannot be read, the others can; every DM
    arrives. *)
Definition picky_env : Env :=
  sample_env true (fun _ _ => inr prompt_msg)
             (fun a => if att_filename a =? "cat.png"
                       then inl (boom HTTPException) else inr png_bytes)
             (fun _ => inr tt) (fun _ => inr posted_msg).

(** No attachment can be read, and after the prompt no DM reaches the
    submitter any more. *)
Definition deaf_env : Env :=
  sample_env true
             (fun _ with_view => if with_view then inr prompt_msg
                                 else inl (boom Forbidden))
             (fun _ => inl (boom HTTPException))
             (fun _ => inr tt) (fun _ => inr posted_msg).

(** No attachment can be read; every DM arrives. *)
Definition unreadable_env : Env :=
  sample_env true (fun _ _ => inr prompt_msg) (fun _ => inl (boom HTTPException))
             (fun _ => inr tt) (fun _ => inr posted_msg).

(** The moderators' channel cannot be found. *)
Definition no_mod_env : Env :=
  sample_env false (fun _ _ => inr prompt_msg) (fun _ => inr png_bytes)
             (fun _ => inr tt) (fun _ => inr posted_msg).

(** The prompt is gone: every edit of it fails. *)
Definition prompt_gone_env : Env :=
  sample_env true (fun _ _ => inr prompt_msg) (fun _ => inr png_bytes)
             (fun _ => inl (boom NotFound)) (fun _ => inr posted_msg).

(** Sending to channel [bad] raises an exception of class [c]. *)
Definition send_fails_env (bad : Z) (c : exn_class) : Env :=
  sample_env true (fun _ _ => inr prompt_msg) (fun _ => inr png_bytes)
             (fun _ => inr tt)
             (fun ch => if (channel_id ch =? bad)%Z then inl (boom c)
                        else inr posted_msg).

(** No DM can be sent at all. *)
Definition no_dm_env : Env :=
  sample_env true (fun _ _ => inl (boom Forbidden)) (fun _ => inr png_bytes)
             (fun _ => inr tt) (fun _ => inr posted_msg).

(** ** Statements *)

(** A message the handler takes for a submission: a DM, not the bot's
    own, with text or an attachment. *)
Definition valid_submission (env : Env) (m : Message) : Prop :=
  user_eqb (author m) (bot_user env) = false
  /\ in_dm m = true
  /\ (str_true (content m) || list_true (attachments m))%bool = true.

(** What an audit record has to show: who wrote, what was written, the
    links of the attachments, and the link to the anonymous post. *)
Definition audit_record_complete (original : Message) (anon_channel : Channel)
    (posted : Message) (a : Embed) : Prop :=
  embed_author a =
    Some {| author_name :=
              user_name (author original) ++ " (ID: "
              ++ str_Z (user_id (author original)) ++ ")";
            author_icon_url := display_avatar (author original) |}
  /\ In {| field_name := "Original Content";
           field_value := if str_true (content original) then content original
                          else "*(No text content)*";
           field_inline := false |} (fields a)
  /\ (attachments original <> [] ->
      In {| field_name := "Original Attachments";
            field_value := join newline (attachment_links (attachments original));
            field_inline := false |} (fields a))
  /\ In {| field_name := "Posted Message";
           field_value := jump_link posted anon_channel;
           field_inline := false |} (fields a)
  /\ footer a = None.

(** Attachment transfer as the specification words it: every reference is
    retrieved, the files are those of the retrievals that succeeded, one
    notice goes out per failure, and nothing is raised. *)
Definition transfer_isolates_failures (env : Env) (message : Message)
    (atts : list Attachment) (h : trace) : Prop :=
  let t := fst (read_attachments env message atts [] h) in
  let r := snd (read_attachments env message atts [] h) in
  map fst (reads t) = atts
  /\ r = inr (payloads (reads t))
  /\ List.length (payloads (reads t)) + List.length (failures (reads t))
     = List.length atts
  /\ notices (author_sends t) = map skipped_notice (failures (reads t)).


(** A successful public post as the specification words it: the prompt
    shows the success notice and an audit record goes out. *)
Definition posted_means_audited (env : Env) (m : Message) : Prop :=
  let t := fst (on_message env m []) in
  forall ch e files posted,
    In (ch, e, files, inr posted) (anon_sends t) ->
    (exists prompt r, In (prompt, success_notice ch, r) (edits t))
    /\ (exists mod_channel a r,
          In (mod_channel, a, r) (mod_log_sends t)
          /\ audit_record_complete m ch posted a).

(** The abort of an effectively empty submission as the specification
    words it. *)
Definition empty_relay_aborts (env : Env) (m : Message) : Prop :=
  let t := fst (on_message env m []) in
  In (Some true) (waits t) ->
  content m = EmptyString ->
  map fst (reads t) = attachments m ->
  Forall (fun rd => delivered (snd rd) = false) (reads t) ->
  (exists prompt r, edits t = [(prompt, nothing_posted_notice, r)])
  /\ submission_outcome t = Failed
  /\ anon_sends t = [].

(** The line an audit failure leaves in the log. *)
Definition audit_failure_line (mod_channel : Channel) (m : Message) (x : exn) : string :=
  if is_Forbidden x then mod_forbidden_line mod_channel else mod_http_line m x.

(** What the submitter and the public channel see of a run in which the
    audit record could not be sent. *)
Definition silent_for_submitter (env : Env) (m : Message) : Prop :=
  let t := fst (on_message env m []) in
  (exists prompt ch, edits t = [(prompt, success_notice ch, inr tt)])
  /\ Forall (fun text => is_failure_notice text = false) (notices (author_sends t))
  /\ submission_outcome t = Posted
  /\ List.length (anon_sends t) = 1.

(** A failed audit send as the specification words it: whatever the
    failure, it is seen in the log only. *)
Definition audit_failure_is_silent (env : Env) (m : Message) : Prop :=
  let t := fst (on_message env m []) in
  forall mod_channel a x,
    In (mod_channel, a, inl x) (mod_log_sends t) ->
    silent_for_submitter env m.

(** A failed prompt as the specification words it: no session, the
    submitter is told, and the handler deals with the failure itself. *)
Definition prompt_failure_reported (env : Env) (m : Message) : Prop :=
  let t := fst (on_message env m []) in
  valid_submission env m ->
  forall x,
    author_send env [] (author m) (confirmation_text (attachments m)) true = inl x ->
    waits t = []
    /\ (exists text r, In (text, false, r) (author_sends t))
    /\ snd (on_message env m []) = inr tt.


(** ** Start-up (lines 16-42)

    The three values come from the environment ([os.getenv]: a string or
    [None]).  A missing or empty value, or a channel id that [int] does
    not take, prints one line and ends the process with [exit()].
    [int] is Python's built-in conversion; [None] stands for its
    [ValueError]. *)

Record Config := {
  cfg_token : string;
  cfg_anonymous_channel_id : Z;
  cfg_mod_log_channel_id : Z
}.

Definition getenv_true (v : option string) : bool :=
  match v with Some s => str_true s | None => false end.

Definition token_missing_line : string :=
  "CRITICAL: DISCORD_TOKEN not found in .env".

Definition id_missing_line (name : string) : string :=
  "CRITICAL: " ++ name ++ " not found in .env".

Definition id_invalid_line (name value : string) : string :=
  "CRITICAL: Invalid " ++ name ++ " '" ++ value ++ "'. Must be an integer.".

Section Startup.

Variable int : string -> option Z.

(** [if not X: print(...); exit() else: try: X = int(X) except
    ValueError: print(...); exit()] : the printed line, or the id. *)
Definition load_channel_id (name : string) (value : option string) : string + Z :=
  match value with
  | None => inl (id_missing_line name)
  | Some s =>
      if str_true s then
        match int s with
        | Some id => inr id
        | None => inl (id_invalid_line name s)
        end
      else inl (id_missing_line name)
  end.

(** The module body down to the creation of the bot: the line printed
    before [exit()], or the configuration the bot runs with. *)
Definition startup (DISCORD_TOKEN ANONYMOUS_CHANNEL_ID MOD_LOG_CHANNEL_ID : option string)
    : string + Config :=
  match DISCORD_TOKEN with
  | None => inl token_missing_line
  | Some token =>
      if str_true token then
        match load_channel_id "ANONYMOUS_CHANNEL_ID" ANONYMOUS_CHANNEL_ID with
        | inl line => inl line
        | inr anon_id =>
            match load_channel_id "MOD_LOG_CHANNEL_ID" MOD_LOG_CHANNEL_ID with
            | inl line => inl line
            | inr mod_id =>
                inr {| cfg_token := token;
                       cfg_anonymous_channel_id := anon_id;
                       cfg_mod_log_channel_id := mod_id |}
            end
        end
      else inl token_missing_line
  end.

End Startup.

(** A stand-in for [int] on plain decimal numerals, for the examples. *)
Definition digit_of (c : ascii) : option Z :=
  let n := Z.of_nat (nat_of_ascii c) in
  if ((48 <=? n) && (n <=? 57))%Z%bool then Some (n - 48)%Z else None.

Fixpoint decimal_from (acc : Z) (s : string) : option Z :=
  match s with
  | EmptyString => Some acc
  | String c s' =>
      match digit_of c with
      | Some d => decimal_from (10 * acc + d)%Z s'
      | None => None
      end
  end.

Definition decimal (s : string) : option Z :=
  match s with
  | EmptyString => None
  | _ => decimal_from 0%Z s
  end.

(** ** More of the trace *)

Definition as_process_commands (ev : event) : option Message :=
  match ev with EvProcessCommands m => Some m | _ => None end.

(** The calls of [bot.process_commands]. *)
Definition commands (t : trace) := pick as_process_commands t.

(** The confirmation prompts: the DMs that carry a view. *)
Fixpoint prompts (ss : list (string * bool * (exn + Message)))
    : list (string * (exn + Message)) :=
  match ss with
  | [] => []
  | (text, true, r) :: ss' => (text, r) :: prompts ss'
  | (_, false, _) :: ss' => prompts ss'
  end.

Definition last_event (t : trace) : option event := hd_error (rev t).

(** A call on the submitter (a DM, or an edit of a message) that raised
    [x]. *)
Definition failed_submitter_call (x : exn) (ev : event) : Prop :=
  match ev with
  | EvAuthorSend _ _ _ (inl y) => y = x
  | EvEdit _ _ _ (inl y) => y = x
  | _ => False
  end.

(** The embed of an anonymous post with text [text]: the text and the
    colour, nothing else. *)
Definition bare_embed (text : string) : Embed :=
  {| title := None; description := Some text; color := Color_blue;
     timestamp := None; embed_author := None; fields := []; footer := None |}.

(** The notice a button puts on the prompt, and the choice it records. *)
Definition item_notice (it : item) : string :=
  match it with
  | confirm_post_anon => processing_notice
  | cancel_post_anon => cancelled_notice
  end.

Definition item_choice (it : item) : bool :=
  match it with
  | confirm_post_anon => true
  | cancel_post_anon => false
  end.

(** The acknowledgement of a click cannot be sent; the prompt can still
    be edited. *)
Definition ack_fails_env : Env :=
  {| bot_user := the_bot;
     ANONYMOUS_CHANNEL_ID := 10;
     MOD_LOG_CHANNEL_ID := 20;
     get_channel := get_channel fine_env;
     author_send := author_send fine_env;
     view_wait := view_wait fine_env;
     attachment_read := attachment_read fine_env;
     message_edit := message_edit fine_env;
     response_edit_message := fun _ _ _ => inl (boom HTTPException);
     channel_send := channel_send fine_env |}.

(** The user presses 'Cancel'. *)
Definition cancel_env : Env :=
  sample_env_with (Some false) true (fun _ _ => inr prompt_msg)
                  (fun _ => inr png_bytes) (fun _ => inr tt)
                  (fun _ => inr posted_msg).

(** The anonymous channel is configured under an id that does not
    resolve. *)
Definition no_anon_env : Env :=
  {| bot_user := the_bot;
     ANONYMOUS_CHANNEL_ID := 11;
     MOD_LOG_CHANNEL_ID := 20;
     get_channel := get_channel fine_env;
     author_send := author_send fine_env;
     view_wait := view_wait fine_env;
     attachment_read := attachment_read fine_env;
     message_edit := message_edit fine_env;
     response_edit_message := response_edit_message fine_env;
     channel_send := channel_send fine_env |}.

(** A message in a server channel. *)
Definition guild_message : Message :=
  {| author := alice; content := "hello"; attachments := [];
     created_at := 1700000000; in_dm := false;
     jump_url := "https://discord.example/channels/5/10/99" |}.

(** ** A session: the events of a view, one after another

    A click on a button or the firing of the timer.  A view that was
    stopped no longer listens (line 85), so it takes an event only while
    it is not stopped, and a click only from a user who passes
    [interaction_check].  Each callback runs to its end before the next
    event is handled; an exception that leaves a callback ends that
    callback only. *)
Inductive ui_event :=
| Click (it : item) (interaction : Interaction)
| TimerFired.

Definition accepts (self : View) (ev : ui_event) : bool :=
  negb (stopped self)
  && match ev with
     | Click _ interaction => interaction_check self interaction
     | TimerFired => true
     end.

Definition deliver (env : Env) (self : View) (ev : ui_event) (h : trace)
    : callback_result :=
  match ev with
  | Click it interaction => scheduled_task env self it interaction h
  | TimerFired => on_timeout env self h
  end.

(** The calls made, the view at the end, and the events that were
    taken. *)
Fixpoint session (env : Env) (self : View) (evs : list ui_event) (h : trace)
    : trace * View * list ui_event :=
  match evs with
  | [] => ([], self, [])
  | ev :: rest =>
      if accepts self ev then
        match deliver env self ev h with
        | (s, self', _) =>
            match session env self' rest (h ++ s)%list with
            | (s', self'', taken) => ((s ++ s')%list, self'', ev :: taken)
            end
        end
      else session env self rest h
  end.

(** Decide and expire exclude each other, as the specification words it:
    of the events of a session only the first one the view accepts takes
    effect; the calls made and the view at the end are those of that one
    event. *)
Definition first_event_wins (env : Env) (self : View) (evs : list ui_event)
    (h : trace) : Prop :=
  session env self evs h =
    match find (accepts self) evs with
    | None => ([], self, [])
    | Some ev =>
        (fst (fst (deliver env self ev h)), snd (fst (deliver env self ev h)), [ev])
    end.

(** Alice's prompt, her click on 'Post Anonymously', then the timer. *)
Definition alice_view : View :=
  with_message (ConfirmationView (dm_from alice "hello" [])) prompt_msg.

Definition click_then_timer : list ui_event :=
  [Click confirm_post_anon {| interaction_user := alice |}; TimerFired].

(** The platform of [ack_fails_env], with the view of [on_message]
    answering what that session has left in [confirmed_post]. *)
Definition raced_env : Env :=
  {| bot_user := the_bot;
     ANONYMOUS_CHANNEL_ID := 10;
     MOD_LOG_CHANNEL_ID := 20;
     get_channel := get_channel ack_fails_env;
     author_send := author_send ack_fails_env;
     view_wait := fun _ =>
       confirmed_post
         (snd (fst (session ack_fails_env alice_view click_then_timer [])));
     attachment_read := attachment_read ack_fails_env;
     message_edit := message_edit ack_fails_env;
     response_edit_message := response_edit_message ack_fails_env;
     channel_send := channel_send ack_fails_env |}.
(** * Properties *)

Local Open Scope list_scope.

Arguments timeout_edit_error_line : simpl never.
Arguments anon_channel_missing_line : simpl never.
Arguments read_error_line : simpl never.
Arguments mod_channel_missing_line : simpl never.
Arguments mod_forbidden_line : simpl never.
Arguments mod_http_line : simpl never.
Arguments anon_forbidden_line : simpl never.
Arguments anon_http_line : simpl never.
Arguments anon_unexpected_line : simpl never.
Arguments skipped_notice : simpl never.
Arguments success_notice : simpl never.
Arguments confirmation_text : simpl never.
Arguments log_embed_for : simpl never.
Arguments anon_embed_for : simpl never.

(** ** Three runs *)

(** Alice sends "hello" without attachments and confirms: one post with
    the description "hello", the success notice on the prompt, one audit
    record naming Alice and linking the post. *)
Example run_hello :
  on_message fine_env (dm_from alice "hello" []) [] =
    ([EvAuthorSend alice "Do you want to post the content anonymously?" true
        (inr prompt_msg);
      EvWait (Some true);
      EvAnonSend anon_ch
        (Some {| title := None; description := Some "hello"; color := Color_blue;
                 timestamp := None; embed_author := None; fields := [];
                 footer := None |})
        [] (inr posted_msg);
      EvEdit prompt_msg "Your message has been posted anonymously to #anonymous!"
        false (inr tt);
      EvModLogSend mod_ch
        {| title := Some "Anonymous Post Logged"; description := None;
           color := Color_orange; timestamp := Some 1700000000%Z;
           embed_author :=
             Some {| author_name := "alice (ID: 1001)";
                     author_icon_url := Some "https://cdn.example/avatars/1001.png" |};
           fields :=
             [{| field_name := "Original Content"; field_value := "hello";
                 field_inline := false |};
              {| field_name := "Posted Message";
                 field_value :=
                   "[Jump to Message](https://discord.example/channels/5/10/555) in #anonymous";
                 field_inline := false |}];
           footer := None |}
        (inr posted_msg);
      EvProcessCommands (dm_from alice "hello" [])],
     inr tt).
Proof. reflexivity. Qed.

(** Alice sends one attachment without text; it cannot be read; she
    confirms: a notice about the attachment, the prompt says that nothing
    was posted, nothing goes to either channel. *)
Example run_unreadable :
  on_message unreadable_env (dm_from alice EmptyString [cat_png]) [] =
    ([EvAuthorSend alice (confirmation_text [cat_png]) true (inr prompt_msg);
      EvWait (Some true);
      EvRead cat_png (inl (boom HTTPException));
      EvPrint "ERROR: Failed to read attachment 'cat.png' from user 1001: boom";
      EvAuthorSend alice
        "Sorry, I couldn't process the attachment: cat.png. It will be skipped."
        false (inr prompt_msg);
      EvEdit prompt_msg nothing_posted_notice false (inr tt)],
     inr tt).
Proof. reflexivity. Qed.

(** Alice sends "test" and never presses a button: nothing is posted;
    the timeout notice is put on the prompt by [on_timeout]. *)
Example run_timeout :
  on_message idle_env (dm_from alice "test" []) [] =
    ([EvAuthorSend alice "Do you want to post the content anonymously?" true
        (inr prompt_msg);
      EvWait None;
      EvProcessCommands (dm_from alice "test" [])],
     inr tt)
  /\ submission_outcome (fst (on_message idle_env (dm_from alice "test" []) []))
     = TimedOut
  /\ on_timeout idle_env
       (with_message (ConfirmationView (dm_from alice "test" [])) prompt_msg) []
     = ([EvEdit prompt_msg timed_out_notice true (inr tt)],
        stop (disable_children
                (with_message (ConfirmationView (dm_from alice "test" [])) prompt_msg)),
        inr tt).
Proof. repeat split. Qed.

(** ** Traces *)

Lemma pick_app {A} (f : event -> option A) (t1 t2 : trace) :
  pick f (t1 ++ t2) = pick f t1 ++ pick f t2.
Proof.
  induction t1 as [|ev t1 IH]; simpl; [reflexivity|].
  destruct (f ev); simpl; now rewrite IH.
Qed.

Lemma payloads_failures_length rs :
  List.length (payloads rs) + List.length (failures rs) = List.length rs.
Proof.
  induction rs as [|[a [e|b]] rs IH]; simpl; lia.
Qed.

(** ** The attachment loop *)

Section Loop.

Variable env : Env.
Variable message : Message.

(** One turn of the loop, spelled out. *)
Lemma read_attachments_step a rest acc h :
  read_attachments env message (a :: rest) acc h =
  match attachment_read env h a with
  | inr image_bytes =>
      let ev := EvRead a (inr image_bytes) in
      let next := read_attachments env message rest
                    (acc ++ [{| file_bytes := image_bytes;
                                file_filename := att_filename a |}])
                    (h ++ [ev]) in
      (ev :: fst next, snd next)
  | inl e =>
      let ev := EvRead a (inl e) in
      let line := EvPrint (read_error_line a message e) in
      let r := author_send env (h ++ [ev; line]) (author message)
                 (skipped_notice a) false in
      let dm := EvAuthorSend (author message) (skipped_notice a) false r in
      match r with
      | inl e' => ([ev; line; dm], inl e')
      | inr _ =>
          let next := read_attachments env message rest acc (h ++ [ev; line; dm]) in
          (ev :: line :: dm :: fst next, snd next)
      end
  end.
Proof.
  simpl. unfold bind, try_except, call, print, send_to_author, ret. simpl.
  destruct (attachment_read env h a) as [e|image_bytes]; simpl.
  - rewrite <- ?app_assoc. simpl.
    destruct (author_send env _ _ _ _) as [e'|sent]; simpl; [reflexivity|].
    rewrite <- ?app_assoc. simpl.
    destruct (read_attachments env message rest acc _); reflexivity.
  - rewrite ?app_nil_r.
    destruct (read_attachments env message rest _ _); reflexivity.
Qed.

Lemma read_attachments_events atts : forall acc h,
  Forall (fun ev => loop_event ev = true)
         (fst (read_attachments env message atts acc h)).
Proof.
  induction atts as [|a rest IH]; intros acc h.
  - constructor.
  - rewrite read_attachments_step.
    destruct (attachment_read env h a) as [e|image_bytes]; simpl.
    + destruct (author_send env _ _ _ _) as [e'|sent]; simpl;
        repeat (constructor; [reflexivity|]); [constructor | apply IH].
    + constructor; [reflexivity | apply IH].
Qed.

(** With every notice delivered, the loop goes through the whole list. *)
Lemma read_attachments_delivered atts : forall acc h,
  let t := fst (read_attachments env message atts acc h) in
  Forall (fun s => delivered (snd s) = true) (author_sends t) ->
  map fst (reads t) = atts
  /\ snd (read_attachments env message atts acc h) = inr (acc ++ payloads (reads t))
  /\ notices (author_sends t) = map skipped_notice (failures (reads t)).
Proof.
  induction atts as [|a rest IH]; intros acc h; cbv zeta.
  - simpl. rewrite app_nil_r. auto.
  - rewrite read_attachments_step.
    destruct (attachment_read env h a) as [e|image_bytes]; cbv zeta.
    + destruct (author_send env _ _ _ _) as [e'|sent].
      * intros H. inversion H as [|? ? Hd _]. discriminate Hd.
      * simpl. intros H. inversion H as [|? ? _ Hrest]; subst.
        destruct (IH acc _ Hrest) as (Hr & Hs & Hn).
        unfold reads, author_sends in *. simpl.
        rewrite Hr, Hs, Hn. auto.
    + simpl. intros H.
      destruct (IH _ _ H) as (Hr & Hs & Hn).
      unfold reads, author_sends in *. simpl.
      rewrite Hr, Hs, Hn, <- app_assoc. auto.
Qed.

End Loop.

(** C5 (as amended).  Of N attachment references of which k fail
    retrieval, and provided every failure notice reaches the submitter,
    the loop retrieves all N in order, hands back exactly the N-k files of
    the successful retrievals in that order, has sent exactly k notices,
    one per failure and naming the file, and raises nothing. *)
Theorem attachment_transfer_isolates_failures env message atts h :
  Forall (fun s => delivered (snd s) = true)
         (author_sends (fst (read_attachments env message atts [] h))) ->
  transfer_isolates_failures env message atts h.
Proof.
  intros H. unfold transfer_isolates_failures.
  destruct (read_attachments_delivered env message atts [] h H) as (Hr & Hs & Hn).
  repeat split; try assumption.
  rewrite payloads_failures_length.
  rewrite <- Hr at 2. now rewrite length_map.
Qed.

Lemma attachment_transfer_isolates_failures_witness :
  Forall (fun s => delivered (snd s) = true)
         (author_sends (fst (read_attachments picky_env (dm_from alice EmptyString [cat_png; dog_png])
                               [cat_png; dog_png] [] [])))
  /\ transfer_isolates_failures picky_env (dm_from alice EmptyString [cat_png; dog_png])
       [cat_png; dog_png] [].
Proof.
  assert (H : Forall (fun s => delivered (snd s) = true)
         (author_sends (fst (read_attachments picky_env (dm_from alice EmptyString [cat_png; dog_png])
                               [cat_png; dog_png] [] [])))).
  { vm_compute. repeat constructor. }
  split; [exact H|].
  exact (attachment_transfer_isolates_failures _ _ _ _ H).
Defined.

(** C5 fails as worded: when the notice about the first failure cannot be
    delivered, that error leaves the loop and the second reference is
    never retrieved. *)
Lemma attachment_transfer_undelivered_notice :
  ~ transfer_isolates_failures deaf_env (dm_from alice EmptyString [cat_png; dog_png])
      [cat_png; dog_png] []
  /\ read_attachments deaf_env (dm_from alice EmptyString [cat_png; dog_png])
       [cat_png; dog_png] [] []
     = ([EvRead cat_png (inl (boom HTTPException));
         EvPrint (read_error_line cat_png (dm_from alice EmptyString [cat_png; dog_png])
                    (boom HTTPException));
         EvAuthorSend alice (skipped_notice cat_png) false (inl (boom Forbidden))],
        inl (boom Forbidden)).
Proof.
  split; [|reflexivity].
  intros (Hr & _). vm_compute in Hr. discriminate Hr.
Qed.

(** What the loop leaves in the trace is neither an edit nor a channel
    post nor an answer of the view. *)
Lemma pick_loop_nil {A} (f : event -> option A) (t : trace) :
  (forall ev, loop_event ev = true -> f ev = None) ->
  Forall (fun ev => loop_event ev = true) t ->
  pick f t = [].
Proof.
  intros Hf Ht. induction Ht as [|ev t Hev _ IH]; simpl; [reflexivity|].
  now rewrite (Hf ev Hev).
Qed.

Lemma loop_event_no_edit ev : loop_event ev = true -> as_edit ev = None.
Proof. destruct ev as [? ? []| | | | | | | |]; simpl; congruence. Qed.

Lemma loop_event_no_anon_send ev : loop_event ev = true -> as_anon_send ev = None.
Proof. destruct ev as [? ? []| | | | | | | |]; simpl; congruence. Qed.

Lemma loop_event_no_mod_log_send ev : loop_event ev = true -> as_mod_log_send ev = None.
Proof. destruct ev as [? ? []| | | | | | | |]; simpl; congruence. Qed.

Lemma loop_event_no_wait ev : loop_event ev = true -> as_wait ev = None.
Proof. destruct ev as [? ? []| | | | | | | |]; simpl; congruence. Qed.

(** ** Running [on_message] case by case *)

Ltac unfold_handlers :=
  unfold on_message, submission, confirmed, relay, post_anonymously,
    log_to_moderators, edit_or_send, send_to_author, process_commands,
    bind, try_except, call, print, ret.

(** Split on the first test or answer the run depends on. *)
Ltac next_case :=
  match goal with
  | |- context [match ?x with _ => _ end] =>
      lazymatch x with
      | context [match _ with _ => _ end] => fail
      | _ => destruct x eqn:?
      end
  end.

(** What is known of the trace of a loop that has been run. *)
Ltac loop_facts :=
  repeat match goal with
  | H : read_attachments ?env ?m ?atts ?acc ?h = (?t, _) |- _ =>
      lazymatch goal with
      | _ : Forall (fun ev => loop_event ev = true) t |- _ => fail
      | _ =>
          let Hev := fresh "Hloop" in
          pose proof (read_attachments_events env m atts acc h) as Hev;
          rewrite H in Hev; simpl in Hev
      end
  end.

Ltac read_trace :=
  unfold anon_sends, mod_log_sends, edits, waits in *;
  simpl in *; rewrite ?pick_app in *; simpl in *;
  repeat match goal with
  | Hev : Forall (fun ev => loop_event ev = true) ?t |- _ =>
      rewrite ?(pick_loop_nil as_edit t loop_event_no_edit Hev),
              ?(pick_loop_nil as_anon_send t loop_event_no_anon_send Hev),
              ?(pick_loop_nil as_mod_log_send t loop_event_no_mod_log_send Hev),
              ?(pick_loop_nil as_wait t loop_event_no_wait Hev) in *
  end;
  simpl in *.

Ltac run_on_message :=
  cbv zeta; unfold_handlers; simpl;
  repeat (next_case; simpl);
  loop_facts.

(** ** Notices *)

Lemma failure_notice_is_failure x : is_failure_notice (failure_notice x) = true.
Proof.
  unfold failure_notice.
  destruct (is_Forbidden x); [reflexivity|].
  destruct (is_HTTPException x); reflexivity.
Qed.

Lemma success_notice_is_not_failure ch : is_failure_notice (success_notice ch) = false.
Proof. reflexivity. Qed.

Lemma skipped_notice_is_not_failure a : is_failure_notice (skipped_notice a) = false.
Proof. reflexivity. Qed.

(** ** The public post fails *)

(** C1.  If the send to the anonymous channel raises, whatever the
    exception, no audit record is sent to the moderators' channel, the one
    edit of the prompt puts up a failure notice, the post is not tried
    again and the submission has failed. *)
Theorem failed_post_is_not_audited env m ch e files x :
  let t := fst (on_message env m []) in
  In (ch, e, files, inl x) (anon_sends t) ->
  mod_log_sends t = []
  /\ (exists prompt r,
        In (confirmation_text (attachments m), true, inr prompt) (author_sends t)
        /\ edits t = [(prompt, failure_notice x, r)])
  /\ is_failure_notice (failure_notice x) = true
  /\ anon_sends t = [(ch, e, files, inl x)]
  /\ submission_outcome t = Failed.
Proof.
  run_on_message.
  all: intros H; unfold submission_outcome, publicly_posted; read_trace.
  all: try contradiction.
  all: try (destruct H as [H|[]]; inversion H; subst; clear H).
  all: repeat split; try reflexivity; try apply failure_notice_is_failure.
  all: eexists _, _; split; [left; reflexivity | reflexivity].
Qed.

Lemma failed_post_is_not_audited_witness :
  let env := send_fails_env 10 Forbidden in
  let m := dm_from alice "hello" [] in
  let t := fst (on_message env m []) in
  In (anon_ch, Some (anon_embed_for "hello"), [], inl (boom Forbidden)) (anon_sends t)
  /\ mod_log_sends t = []
  /\ edits t = [(prompt_msg, permission_notice, inr tt)]
  /\ submission_outcome t = Failed.
Proof.
  cbv zeta.
  assert (H : In (anon_ch, Some (anon_embed_for "hello"), [], inl (boom Forbidden))
                 (anon_sends (fst (on_message (send_fails_env 10 Forbidden)
                                     (dm_from alice "hello" []) [])))).
  { left. reflexivity. }
  destruct (failed_post_is_not_audited _ _ _ _ _ _ H) as (Ha & _ & _ & _ & Ho).
  split; [exact H|]. split; [exact Ha|]. split; [reflexivity | exact Ho].
Defined.

(** ** Before the confirmation *)

(** C7.  A DM with neither text nor attachment (and not the bot's own):
    the one thing the handler does is DM the rejection notice to its
    author; no prompt is sent and no confirmation is waited for. *)
Theorem empty_message_is_rejected env m :
  user_eqb (author m) (bot_user env) = false ->
  in_dm m = true ->
  content m = EmptyString ->
  attachments m = [] ->
  let r := author_send env [] (author m) rejection_notice false in
  let t := fst (on_message env m []) in
  t = [EvAuthorSend (author m) rejection_notice false r]
  /\ waits t = []
  /\ (forall text r', ~ In (text, true, r') (author_sends t))
  /\ snd (on_message env m []) =
     match r with inl x => inl x | inr _ => inr tt end.
Proof.
  intros Hself Hdm Htext Hatts. cbv zeta.
  unfold on_message, submission, send_to_author, bind, call, ret.
  rewrite Hself, Hdm, Htext, Hatts. simpl.
  destruct (author_send env [] (author m) rejection_notice false) as [x|sent];
    simpl; repeat split; try reflexivity.
  - intros text r' [H|[]]. discriminate H.
  - intros text r' [H|[]]. discriminate H.
Qed.

Lemma empty_message_is_rejected_witness :
  let env := fine_env in
  let m := dm_from alice EmptyString [] in
  (user_eqb (author m) (bot_user env) = false /\ in_dm m = true
   /\ content m = EmptyString /\ attachments m = [])
  /\ fst (on_message env m []) =
     [EvAuthorSend alice rejection_notice false (inr prompt_msg)]
  /\ waits (fst (on_message env m [])) = [].
Proof.
  cbv zeta.
  assert (H1 : user_eqb (author (dm_from alice EmptyString [])) (bot_user fine_env) = false)
    by reflexivity.
  assert (H2 : in_dm (dm_from alice EmptyString []) = true) by reflexivity.
  assert (H3 : content (dm_from alice EmptyString []) = EmptyString) by reflexivity.
  assert (H4 : attachments (dm_from alice EmptyString []) = []) by reflexivity.
  destruct (empty_message_is_rejected fine_env _ H1 H2 H3 H4) as (Ht & Hw & _).
  split; [repeat split; assumption|]. split; [exact Ht | exact Hw].
Defined.

(** C9 (as amended).  When sending the confirmation prompt of a valid
    submission raises, the handler does nothing more: it waits for no
    confirmation, sends nothing further to anyone, and the exception
    leaves [on_message]. *)
Theorem prompt_failure_propagates env m x :
  valid_submission env m ->
  author_send env [] (author m) (confirmation_text (attachments m)) true = inl x ->
  on_message env m [] =
    ([EvAuthorSend (author m) (confirmation_text (attachments m)) true (inl x)],
     inl x).
Proof.
  intros (Hself & Hdm & Hvalid) Hsend.
  unfold on_message, submission, send_to_author, bind, call, ret.
  rewrite Hself, Hdm.
  replace (negb (str_true (content m)) && negb (list_true (attachments m)))
    with false
    by (destruct (str_true (content m)), (list_true (attachments m));
        simpl in *; congruence).
  rewrite Hsend. reflexivity.
Qed.

Lemma prompt_failure_propagates_witness :
  let env := no_dm_env in
  let m := dm_from alice "hello" [] in
  valid_submission env m
  /\ author_send env [] (author m) (confirmation_text (attachments m)) true
     = inl (boom Forbidden)
  /\ on_message env m [] =
     ([EvAuthorSend alice (confirmation_text []) true (inl (boom Forbidden))],
      inl (boom Forbidden)).
Proof.
  cbv zeta.
  assert (Hv : valid_submission no_dm_env (dm_from alice "hello" []))
    by (repeat split).
  assert (Hs : author_send no_dm_env [] (author (dm_from alice "hello" []))
                 (confirmation_text (attachments (dm_from alice "hello" []))) true
               = inl (boom Forbidden)) by reflexivity.
  split; [exact Hv|]. split; [exact Hs|].
  exact (prompt_failure_propagates _ _ _ Hv Hs).
Defined.

(** C9 fails as worded: with the prompt undeliverable, the submitter is
    told nothing and the exception leaves the handler. *)
Lemma prompt_failure_is_not_reported :
  on_message no_dm_env (dm_from alice "hello" []) [] =
    ([EvAuthorSend alice (confirmation_text []) true (inl (boom Forbidden))],
     inl (boom Forbidden))
  /\ ~ prompt_failure_reported no_dm_env (dm_from alice "hello" []).
Proof.
  split; [reflexivity|].
  intros H.
  destruct (H (conj eq_refl (conj eq_refl eq_refl)) (boom Forbidden) eq_refl)
    as (_ & _ & Hr).
  discriminate Hr.
Qed.

(** ** The confirmation view *)

(** C6.  A click by anyone but the author of the submission is dropped:
    the view is left as it was, whatever state it is in, and nothing is
    sent, edited or printed. *)
Theorem foreign_click_is_dropped env self it interaction h :
  user_id (interaction_user interaction) <> user_id (author (original_message self)) ->
  interaction_check self interaction = false
  /\ scheduled_task env self it interaction h = ([], self, inr tt).
Proof.
  intros Hneq.
  assert (Hc : interaction_check self interaction = false)
    by (unfold interaction_check; now apply Z.eqb_neq).
  split; [exact Hc|].
  unfold scheduled_task. now rewrite Hc.
Qed.

Lemma foreign_click_is_dropped_witness :
  let self := with_message (ConfirmationView (dm_from alice "hello" [])) prompt_msg in
  let click := {| interaction_user := mallory |} in
  user_id (interaction_user click) <> user_id (author (original_message self))
  /\ scheduled_task fine_env self confirm_post_anon click [] = ([], self, inr tt)
  /\ confirmed_post self = None.
Proof.
  cbv zeta.
  assert (H : user_id (interaction_user {| interaction_user := mallory |})
              <> user_id (author (original_message
                   (with_message (ConfirmationView (dm_from alice "hello" [])) prompt_msg))))
    by (simpl; lia).
  split; [exact H|]. split; [|reflexivity].
  exact (proj2 (foreign_click_is_dropped fine_env _ confirm_post_anon _ [] H)).
Defined.

(** The author's own click goes through to the button. *)
Lemma author_click_confirms env m prompt h :
  response_edit_message env h (author m) processing_notice = inr tt ->
  scheduled_task env (with_message (ConfirmationView m) prompt) confirm_post_anon
    {| interaction_user := author m |} h
  = ([EvResponseEdit (author m) processing_notice (inr tt)],
     stop (disable_children
             (with_confirmed_post (with_message (ConfirmationView m) prompt)
                                  (Some true))),
     inr tt).
Proof.
  intros H. unfold scheduled_task, interaction_check. simpl.
  rewrite Z.eqb_refl. unfold confirm_button. simpl. now rewrite H.
Qed.

(** ** The audit record *)

Lemma log_embed_complete m ch posted :
  audit_record_complete m ch posted (log_embed_for m ch (Some posted)).
Proof.
  unfold audit_record_complete, log_embed_for.
  destruct (attachments m) as [|a rest] eqn:Hatts; simpl.
  - repeat split; auto; intros H; now contradiction H.
  - repeat split; auto; intros _; simpl; auto.
Qed.

(** C10.  Whenever an audit record is sent, the anonymous channel has
    answered the one post with a message, and the record is the one
    built with that message: it carries the jump link and no footer.
    The branch for a missing handle is never taken. *)
Theorem audit_record_has_jump_link env m mod_channel a r :
  let t := fst (on_message env m []) in
  In (mod_channel, a, r) (mod_log_sends t) ->
  exists ch e files posted,
    anon_sends t = [(ch, e, files, inr posted)]
    /\ a = log_embed_for m ch (Some posted)
    /\ In {| field_name := "Posted Message";
             field_value := jump_link posted ch;
             field_inline := false |} (fields a)
    /\ footer a = None.
Proof.
  run_on_message.
  all: intros H; read_trace.
  all: try contradiction; try discriminate.
  all: destruct H as [H|[]]; inversion H; subst; clear H.
  all: eexists _, _, _, _; split; [reflexivity|]; split; [reflexivity|].
  all: apply (log_embed_complete m).
Qed.

Lemma audit_record_has_jump_link_witness :
  let env := fine_env in
  let m := dm_from alice "hello" [cat_png] in
  let t := fst (on_message env m []) in
  In (mod_ch, log_embed_for m anon_ch (Some posted_msg), inr posted_msg)
     (mod_log_sends t)
  /\ exists ch e files posted,
       anon_sends t = [(ch, e, files, inr posted)]
       /\ log_embed_for m anon_ch (Some posted_msg) = log_embed_for m ch (Some posted)
       /\ In {| field_name := "Posted Message";
                field_value := jump_link posted ch;
                field_inline := false |}
             (fields (log_embed_for m anon_ch (Some posted_msg)))
       /\ footer (log_embed_for m anon_ch (Some posted_msg)) = None.
Proof.
  cbv zeta.
  assert (H : In (mod_ch,
                  log_embed_for (dm_from alice "hello" [cat_png]) anon_ch (Some posted_msg),
                  inr posted_msg)
                 (mod_log_sends (fst (on_message fine_env
                                        (dm_from alice "hello" [cat_png]) []))))
    by (left; reflexivity).
  split; [exact H|].
  exact (audit_record_has_jump_link _ _ _ _ _ H).
Defined.

(** ** The public post succeeds *)

(** C2 (as amended).  When the anonymous channel has taken the post, the
    prompt is edited to the success notice, which names that channel.  If
    that edit does not raise and the moderators' channel is found, one
    audit record is sent there: it shows the author's name and id, the
    original text, the links of the original attachments and the jump
    link to the anonymous post. *)
Theorem posted_is_audited env m ch e files posted :
  let t := fst (on_message env m []) in
  In (ch, e, files, inr posted) (anon_sends t) ->
  exists prompt r,
    In (confirmation_text (attachments m), true, inr prompt) (author_sends t)
    /\ In (prompt, success_notice ch, r) (edits t)
    /\ (delivered r = true ->
        forall mod_channel,
          get_channel env (MOD_LOG_CHANNEL_ID env) = Some mod_channel ->
          exists a r',
            mod_log_sends t = [(mod_channel, a, r')]
            /\ a = log_embed_for m ch (Some posted)
            /\ audit_record_complete m ch posted a).
Proof.
  run_on_message.
  all: intros H; read_trace.
  all: try contradiction; try discriminate.
  all: destruct H as [H|[]]; inversion H; subst; clear H.
  all: eexists _, _; split; [left; reflexivity|]; split; [left; reflexivity|].
  all: intros Hd mod_channel Hmod; try discriminate Hd; try discriminate Hmod.
  all: inversion Hmod; subst.
  all: eexists _, _; split; [reflexivity|]; split; [reflexivity|].
  all: apply log_embed_complete.
Qed.

Lemma posted_is_audited_witness :
  let env := fine_env in
  let m := dm_from alice "hello" [cat_png] in
  let cat := {| file_bytes := png_bytes; file_filename := "cat.png" |} in
  let t := fst (on_message env m []) in
  In (anon_ch, Some (anon_embed_for "hello"), [cat], inr posted_msg) (anon_sends t)
  /\ exists prompt r,
       In (confirmation_text (attachments m), true, inr prompt) (author_sends t)
       /\ In (prompt, success_notice anon_ch, r) (edits t)
       /\ (delivered r = true ->
           forall mod_channel,
             get_channel env (MOD_LOG_CHANNEL_ID env) = Some mod_channel ->
             exists a r',
               mod_log_sends t = [(mod_channel, a, r')]
               /\ a = log_embed_for m anon_ch (Some posted_msg)
               /\ audit_record_complete m anon_ch posted_msg a).
Proof.
  cbv zeta.
  assert (H : In (anon_ch, Some (anon_embed_for "hello"),
                  [{| file_bytes := png_bytes; file_filename := "cat.png" |}],
                  inr posted_msg)
                 (anon_sends (fst (on_message fine_env
                                     (dm_from alice "hello" [cat_png]) []))))
    by (left; reflexivity).
  split; [exact H|].
  exact (posted_is_audited _ _ _ _ _ _ H).
Defined.

(** C2 fails as worded: the post goes out and no audit record follows
    when the moderators' channel is not found, and also when the edit of
    the prompt raises. *)
Lemma posted_but_not_audited :
  (publicly_posted (fst (on_message no_mod_env (dm_from alice "hello" []) [])) = true
   /\ mod_log_sends (fst (on_message no_mod_env (dm_from alice "hello" []) [])) = []
   /\ ~ posted_means_audited no_mod_env (dm_from alice "hello" []))
  /\ (publicly_posted (fst (on_message prompt_gone_env (dm_from alice "hello" []) [])) = true
      /\ mod_log_sends (fst (on_message prompt_gone_env (dm_from alice "hello" []) [])) = []
      /\ ~ posted_means_audited prompt_gone_env (dm_from alice "hello" [])).
Proof.
  split; (split; [reflexivity|]; split; [reflexivity|]).
  - intros H.
    destruct (H anon_ch (Some (anon_embed_for "hello")) [] posted_msg
                (or_introl eq_refl)) as (_ & mc & a & r & Hin & _).
    exact Hin.
  - intros H.
    destruct (H anon_ch (Some (anon_embed_for "hello")) [] posted_msg
                (or_introl eq_refl)) as (_ & mc & a & r & Hin & _).
    exact Hin.
Qed.

(** ** The audit record cannot be sent *)

Section LoopNotices.

Variable env : Env.
Variable message : Message.

(** The loop tells the submitter about skipped attachments only. *)
Lemma read_attachments_notices atts : forall acc h,
  Forall (fun text => is_failure_notice text = false)
         (notices (author_sends (fst (read_attachments env message atts acc h)))).
Proof.
  induction atts as [|a rest IH]; intros acc h.
  - constructor.
  - rewrite read_attachments_step.
    destruct (attachment_read env h a) as [e|image_bytes]; simpl.
    + destruct (author_send env _ _ _ _) as [e'|sent]; simpl.
      * constructor; [apply skipped_notice_is_not_failure | constructor].
      * constructor; [apply skipped_notice_is_not_failure | apply IH].
    + apply IH.
Qed.

(** The loop, from what it left in the trace. *)
Lemma read_attachments_result atts acc h t r :
  read_attachments env message atts acc h = (t, r) ->
  Forall (fun s => delivered (snd s) = true) (author_sends t) ->
  map fst (reads t) = atts /\ r = inr (acc ++ payloads (reads t)).
Proof.
  intros Heq Hd.
  pose proof (read_attachments_delivered env message atts acc h) as H.
  rewrite Heq in H. simpl in H. destruct (H Hd) as (Hr & Hs & _). auto.
Qed.

End LoopNotices.

Lemma all_failed_no_payloads rs :
  Forall (fun rd => delivered (snd rd) = false) rs -> payloads rs = [].
Proof.
  induction 1 as [|[a [e|b]] rs Hd _ IH]; simpl in *; congruence.
Qed.

Ltac loop_notices :=
  repeat match goal with
  | H : read_attachments ?env ?m ?atts ?acc ?h = (?t, _) |- _ =>
      lazymatch goal with
      | _ : Forall (fun text => is_failure_notice text = false)
                   (notices (author_sends t)) |- _ => fail
      | _ =>
          let Hn := fresh "Hnotices" in
          pose proof (read_attachments_notices env m atts acc h) as Hn;
          rewrite H in Hn; simpl in Hn
      end
  end.

Ltac read_all :=
  unfold anon_sends, mod_log_sends, edits, waits, reads, author_sends, prints in *;
  simpl in *; rewrite ?pick_app in *; simpl in *; rewrite ?app_nil_r in *.




(** ** Nothing left to post *)




(** ** The callbacks and the state of the view *)

(** The callbacks themselves do not look at the state of the view: run
    on a view that was confirmed and stopped, [cancel_button] overwrites
    the choice.  Keeping a resolved view from being called again is left
    to the framework that delivers clicks and timeouts. *)
Lemma cancel_button_overwrites env self interaction h :
  response_edit_message env h (interaction_user interaction) cancelled_notice = inr tt ->
  confirmed_post (snd (fst (cancel_button env self interaction h))) = Some false.
Proof.
  intros H. unfold cancel_button. now rewrite H.
Qed.

(** * More of the handler *)

(** ** The last event of a trace *)

Lemma last_event_cons ev t e :
  last_event t = Some e -> last_event (ev :: t) = Some e.
Proof.
  unfold last_event. simpl. destruct (rev t) as [|e' l]; simpl; congruence.
Qed.

Lemma last_event_app t l e :
  last_event l = Some e -> last_event (t ++ l) = Some e.
Proof.
  intros H. induction t as [|ev t IH]; simpl; [exact H|].
  now apply last_event_cons.
Qed.

(** ** The attachment loop, whatever the answers *)

Section LoopOutcome.

Variable env : Env.
Variable message : Message.

Lemma read_attachments_any atts : forall acc h,
  let t := fst (read_attachments env message atts acc h) in
  (exists rest, atts = map fst (reads t) ++ rest)
  /\ match snd (read_attachments env message atts acc h) with
     | inr files =>
         map fst (reads t) = atts
         /\ files = acc ++ payloads (reads t)
         /\ Forall (fun s => delivered (snd s) = true) (author_sends t)
     | inl x =>
         exists a,
           In a atts
           /\ last_event t
              = Some (EvAuthorSend (author message) (skipped_notice a) false (inl x))
     end.
Proof.
  induction atts as [|a rest IH]; intros acc h; cbv zeta.
  - simpl. split; [now exists []|]. rewrite app_nil_r. repeat split. constructor.
  - rewrite read_attachments_step.
    destruct (attachment_read env h a) as [e|image_bytes]; cbv zeta.
    + destruct (author_send env _ _ _ _) as [e'|sent].
      * simpl. split; [now exists rest|]. exists a. split; [now left | reflexivity].
      * match goal with
        | |- context [read_attachments env message rest acc ?h'] =>
            specialize (IH acc h')
        end.
        cbv zeta in IH. destruct IH as ((rest' & Hpre) & Hres).
        unfold reads, author_sends in *. simpl.
        split; [exists rest'; simpl; now f_equal|].
        destruct (snd (read_attachments env message rest acc _)) as [x|files].
        -- destruct Hres as (a' & Hin & Hlast). exists a'. split; [now right|].
           now repeat apply last_event_cons.
        -- destruct Hres as (Hr & Hf & Hd). repeat split; try congruence.
           constructor; [reflexivity | exact Hd].
    + match goal with
      | |- context [read_attachments env message rest ?acc' ?h'] =>
          specialize (IH acc' h')
      end.
      cbv zeta in IH. destruct IH as ((rest' & Hpre) & Hres).
      unfold reads, author_sends in *. simpl.
      split; [exists rest'; simpl; now f_equal|].
      destruct (snd (read_attachments env message rest _ _)) as [x|files].
      * destruct Hres as (a' & Hin & Hlast). exists a'. split; [now right|].
        now apply last_event_cons.
      * destruct Hres as (Hr & Hf & Hd). repeat split; try congruence.
        rewrite Hf, <- app_assoc. reflexivity.
Qed.

End LoopOutcome.

(** X1.  Whatever the platform answers, the loop retrieves the
    attachments in the order of the list, none twice and none skipped
    before the point it has reached.  If it returns, it has retrieved them
    all, every notice was delivered, and its files are those of the
    successful retrievals in order.  If it raises, the exception is that
    of a notice DM which could not be sent, and that DM is the last thing
    it did: a failed retrieval never leaves the loop. *)
Theorem read_attachments_outcome env message atts h :
  let t := fst (read_attachments env message atts [] h) in
  (exists rest, atts = map fst (reads t) ++ rest)
  /\ match snd (read_attachments env message atts [] h) with
     | inr files =>
         map fst (reads t) = atts
         /\ files = payloads (reads t)
         /\ Forall (fun s => delivered (snd s) = true) (author_sends t)
     | inl x =>
         exists a,
           In a atts
           /\ last_event t
              = Some (EvAuthorSend (author message) (skipped_notice a) false (inl x))
     end.
Proof.
  exact (read_attachments_any env message atts [] h).
Qed.

(** ** What every run of [on_message] keeps to *)

Lemma loop_event_no_commands ev :
  loop_event ev = true -> as_process_commands ev = None.
Proof. destruct ev as [? ? []| | | | | | | |]; simpl; congruence. Qed.

Lemma prompts_app ss1 ss2 : prompts (ss1 ++ ss2) = prompts ss1 ++ prompts ss2.
Proof.
  induction ss1 as [|[[text []] r] ss1 IH]; simpl; now rewrite ?IH.
Qed.

Lemma loop_prompts t :
  Forall (fun ev => loop_event ev = true) t -> prompts (pick as_author_send t) = [].
Proof.
  intros Ht. induction Ht as [|ev t Hev _ IH]; simpl; [reflexivity|].
  destruct ev as [? ? []| | | | | | | |]; simpl in *; try discriminate;
    assumption.
Qed.

(** What the loop has done, from its equation. *)
Ltac loop_outcome :=
  repeat match goal with
  | H : read_attachments ?env ?m ?atts ?acc ?h = (?t, ?r) |- _ =>
      lazymatch goal with
      | _ : exists rest, atts = map fst (reads t) ++ rest |- _ => fail
      | _ =>
          let Hout := fresh "Hout" in
          pose proof (read_attachments_any env m atts acc h) as Hout;
          rewrite H in Hout; cbv zeta in Hout; cbn [fst snd] in Hout;
          let Hpre := fresh "Hprefix" in
          let Hres := fresh "Hresult" in
          destruct Hout as (Hpre & Hres)
      end
  end.

Ltac read_more :=
  unfold anon_sends, mod_log_sends, edits, waits, commands, reads,
    author_sends, prints in *;
  simpl in *; rewrite ?pick_app, ?prompts_app in *; simpl in *;
  repeat match goal with
  | Hev : Forall (fun ev => loop_event ev = true) ?t |- _ =>
      rewrite ?(pick_loop_nil as_edit t loop_event_no_edit Hev),
              ?(pick_loop_nil as_anon_send t loop_event_no_anon_send Hev),
              ?(pick_loop_nil as_mod_log_send t loop_event_no_mod_log_send Hev),
              ?(pick_loop_nil as_wait t loop_event_no_wait Hev),
              ?(pick_loop_nil as_process_commands t loop_event_no_commands Hev),
              ?(loop_prompts t Hev) in *
  end;
  simpl in *; rewrite ?app_nil_r in *.

(** X2.  In no run is a call made more than once that must not be: at
    most one confirmation prompt, one wait for the view, one post to the
    anonymous channel, one audit record, one call of the command
    processor, and at most two edits of the prompt. *)
Theorem on_message_calls_once env m :
  let t := fst (on_message env m []) in
  List.length (prompts (author_sends t)) <= 1
  /\ List.length (waits t) <= 1
  /\ List.length (anon_sends t) <= 1
  /\ List.length (mod_log_sends t) <= 1
  /\ List.length (commands t) <= 1
  /\ List.length (edits t) <= 2.
Proof.
  run_on_message.
  all: read_more.
  all: repeat split; simpl; lia.
Qed.

Ltac valid_here :=
  unfold valid_submission;
  repeat split; try assumption;
  destruct (str_true (content _)), (list_true (attachments _));
  simpl in *; congruence.

(** X3.  Nothing of a submission is touched before its author has
    confirmed: if a run reads an attachment, posts to the anonymous
    channel or sends an audit record, then the message was a valid
    submission, its prompt was delivered, the view answered [True], and
    the anonymous channel was found. *)
Theorem relay_needs_confirmation env m :
  let t := fst (on_message env m []) in
  reads t <> [] \/ anon_sends t <> [] \/ mod_log_sends t <> [] ->
  valid_submission env m
  /\ (exists prompt,
        prompts (author_sends t) = [(confirmation_text (attachments m), inr prompt)])
  /\ waits t = [Some true]
  /\ exists ch, get_channel env (ANONYMOUS_CHANNEL_ID env) = Some ch.
Proof.
  run_on_message.
  all: intros H; read_more.
  all: try (destruct H as [H|[H|H]]; congruence).
  all: (split; [valid_here|]); (split; [eexists; reflexivity|]);
       (split; [reflexivity|]); eexists; reflexivity.
Qed.

(** X4.  What goes out on the anonymous channel carries nothing of the
    author: the post goes to the channel configured as anonymous; its
    embed, present exactly when the text is not empty, holds the text as
    description and the colour and nothing else (no author, no title, no
    footer, no field, no timestamp); its files are those of the
    attachments that could be read, all attachments having been tried in
    order, under their own file names. *)
Theorem anonymous_post_content env m ch e files r :
  let t := fst (on_message env m []) in
  In (ch, e, files, r) (anon_sends t) ->
  get_channel env (ANONYMOUS_CHANNEL_ID env) = Some ch
  /\ e = (if str_true (content m) then Some (bare_embed (content m)) else None)
  /\ map fst (reads t) = attachments m
  /\ files = payloads (reads t)
  /\ (str_true (content m) || list_true files)%bool = true.
Proof.
  run_on_message; loop_outcome.
  all: intros H; read_more.
  all: try contradiction.
  all: destruct H as [H|[]]; inversion H; subst; clear H.
  all: repeat match goal with
       | H : _ /\ _ |- _ => destruct H
       end.
  all: unfold anon_embed_for, new_Embed, bare_embed.
  all: repeat match goal with
       | H : str_true (content _) = _ |- _ => rewrite H
       end.
  all: try match goal with
       | H : list_true (attachments ?m) = false |- _ =>
           destruct (attachments m); [|discriminate H]
       end.
  all: try match goal with
       | H : list_true ?l = false, H' : ?l = payloads _ |- _ =>
           destruct l; [|discriminate H]
       end.
  all: repeat split; try assumption; try reflexivity; auto.
Qed.

Ltac not_a_success_notice :=
  match goal with
  | H : _ = success_notice _ |- _ =>
      apply (f_equal is_failure_notice) in H;
      rewrite success_notice_is_not_failure in H;
      rewrite ?failure_notice_is_failure in H;
      discriminate H
  end.

(** X5.  The submitter is never told of a success that did not happen:
    whenever the prompt is edited to a success notice, the anonymous
    channel has accepted the post, and that edit is the first edit of the
    prompt. *)
Theorem success_notice_means_posted env m prompt ch r :
  let t := fst (on_message env m []) in
  In (prompt, success_notice ch, r) (edits t) ->
  (exists c e files posted, anon_sends t = [(c, e, files, inr posted)])
  /\ hd_error (edits t) = Some (prompt, success_notice ch, r).
Proof.
  cbv zeta. remember (success_notice ch) as want eqn:Hwant.
  run_on_message.
  all: intros H; read_more.
  all: try contradiction; try discriminate.
  all: repeat match goal with
       | H : _ \/ _ |- _ => destruct H as [H|H]
       | H : False |- _ => contradiction H
       end.
  all: inversion H; subst; clear H.
  all: try not_a_success_notice.
  all: split; [eexists _, _, _, _; reflexivity | reflexivity].
Qed.

Ltac find_last :=
  first [ reflexivity
        | eassumption
        | apply last_event_app; first [reflexivity | eassumption]
        | apply last_event_cons; find_last ].

(** X6.  The only exceptions that leave [on_message] are those of calls
    on the submitter: when the handler ends by an exception, the last
    thing it did was a DM to the author or an edit of the prompt, and the
    exception is the one that call raised.  A failed retrieval of an
    attachment and a failed send to either channel never leave the
    handler. *)
Theorem on_message_raises_only_from_submitter env m x :
  snd (on_message env m []) = inl x ->
  exists ev,
    last_event (fst (on_message env m [])) = Some ev
    /\ failed_submitter_call x ev.
Proof.
  run_on_message; loop_outcome.
  all: intros H; try discriminate H.
  all: inversion H; subst; clear H.
  all: try match goal with
       | H : exists a, In a _ /\ last_event _ = _ |- _ =>
           destruct H as (a & _ & Hlast)
       end.
  all: rewrite ?app_nil_r.
  all: eexists; (split; [find_last | reflexivity]).
Qed.

(** X7.  When the user cancels, or lets the view time out, [on_message]
    does nothing with the submission: after the prompt and the wait it
    only hands the message to the command processor and returns; no
    attachment is read, nothing is sent to a channel, and the prompt is
    left to the view. *)
Theorem unconfirmed_is_left_alone env m choice :
  let t := fst (on_message env m []) in
  In choice (waits t) ->
  choice <> Some true ->
  exists prompt,
    on_message env m [] =
      ([EvAuthorSend (author m) (confirmation_text (attachments m)) true (inr prompt);
        EvWait choice;
        EvProcessCommands m],
       inr tt).
Proof.
  run_on_message.
  all: intros H Hc; read_more.
  all: try contradiction.
  all: destruct H as [H|[]]; subst; try congruence.
  all: eexists; reflexivity.
Qed.

(** X8.  When the anonymous channel is not found at post time, a
    confirmed submission ends there: a line is printed, the prompt is
    edited to the notice about the configuration, and the handler
    returns at once.  No attachment is read, nothing is sent to the
    moderators' channel, and the command processor is not called. *)
Theorem missing_anon_channel_stops env m :
  let t := fst (on_message env m []) in
  In (Some true) (waits t) ->
  get_channel env (ANONYMOUS_CHANNEL_ID env) = None ->
  exists prompt r,
    on_message env m [] =
      ([EvAuthorSend (author m) (confirmation_text (attachments m)) true (inr prompt);
        EvWait (Some true);
        EvPrint (anon_channel_missing_line (ANONYMOUS_CHANNEL_ID env));
        EvEdit prompt no_channel_notice false r],
       match r with inl x => inl x | inr _ => inr tt end).
Proof.
  cbv zeta. intros H Hno. revert H.
  unfold_handlers. simpl. rewrite Hno.
  repeat (next_case; simpl).
  all: intros H; read_more.
  all: try contradiction.
  all: try (destruct H as [H|[]]; discriminate H).
  all: eexists _, _; apply f_equal2; [reflexivity | reflexivity].
Qed.

(** X9.  The command processor is called at most once, on the message
    itself, as the very last thing and only when the handler returns
    normally.  It is not called when the prompt was given the notice
    about the missing channel or the notice that nothing was posted: the
    handler has returned early there. *)
Theorem process_commands_comes_last env m :
  let t := fst (on_message env m []) in
  (commands t = []
   \/ (commands t = [m]
       /\ last_event t = Some (EvProcessCommands m)
       /\ snd (on_message env m []) = inr tt))
  /\ (forall prompt text r,
        In (prompt, text, r) (edits t) ->
        text = no_channel_notice \/ text = nothing_posted_notice ->
        commands t = []).
Proof.
  run_on_message.
  all: read_more.
  all: split;
       [ first [ left; reflexivity
               | right; (split; [reflexivity|]); (split; [find_last | reflexivity]) ]
       | intros prompt text r Hin Htext; try reflexivity; try contradiction ].
  all: repeat match goal with
       | H : _ \/ _ |- _ => destruct H as [H|H]
       | H : False |- _ => contradiction H
       | H : (_, _, _) = (_, _, _) |- _ => inversion H; subst; clear H
       end.
  all: try match goal with
       | H : success_notice _ = _ |- _ =>
           apply (f_equal is_failure_notice) in H;
           rewrite success_notice_is_not_failure in H; discriminate H
       end.
  all: match goal with
       | H : failure_notice ?e = _ |- _ =>
           unfold failure_notice in H;
           destruct (is_Forbidden e); [discriminate H|];
           destruct (is_HTTPException e); discriminate H
       end.
Qed.

(** X10.  Only a DM from somebody else is a submission.  For a message
    of the bot itself the handler does nothing at all; for any other
    message outside a DM channel it calls the command processor and
    nothing else.  Either way nothing is sent, edited or read. *)
Theorem not_a_submission env m :
  (user_eqb (author m) (bot_user env) || negb (in_dm m))%bool = true ->
  on_message env m [] =
    (if user_eqb (author m) (bot_user env) then [] else [EvProcessCommands m],
     inr tt).
Proof.
  intros H. unfold on_message, bind, ret, process_commands.
  destruct (user_eqb (author m) (bot_user env)); [reflexivity|].
  destruct (in_dm m); [discriminate H | reflexivity].
Qed.

Lemma not_a_submission_witness :
  (user_eqb (author guild_message) (bot_user fine_env)
   || negb (in_dm guild_message))%bool = true
  /\ on_message fine_env guild_message [] = ([EvProcessCommands guild_message], inr tt).
Proof.
  assert (H : (user_eqb (author guild_message) (bot_user fine_env)
               || negb (in_dm guild_message))%bool = true) by reflexivity.
  split; [exact H|].
  exact (not_a_submission fine_env guild_message H).
Defined.

Lemma relay_needs_confirmation_witness :
  let env := fine_env in
  let m := dm_from alice "hello" [cat_png] in
  let t := fst (on_message env m []) in
  (reads t <> [] \/ anon_sends t <> [] \/ mod_log_sends t <> [])
  /\ valid_submission env m
  /\ (exists prompt,
        prompts (author_sends t) = [(confirmation_text (attachments m), inr prompt)])
  /\ waits t = [Some true]
  /\ exists ch, get_channel env (ANONYMOUS_CHANNEL_ID env) = Some ch.
Proof.
  cbv zeta.
  assert (H : reads (fst (on_message fine_env (dm_from alice "hello" [cat_png]) [])) <> []
              \/ anon_sends (fst (on_message fine_env (dm_from alice "hello" [cat_png]) [])) <> []
              \/ mod_log_sends (fst (on_message fine_env (dm_from alice "hello" [cat_png]) [])) <> [])
    by (left; discriminate).
  split; [exact H|].
  exact (relay_needs_confirmation fine_env _ H).
Defined.

Lemma anonymous_post_content_witness :
  let env := picky_env in
  let m := dm_from alice "hello" [cat_png; dog_png] in
  let dog := {| file_bytes := png_bytes; file_filename := "dog.png" |} in
  let t := fst (on_message env m []) in
  In (anon_ch, Some (bare_embed "hello"), [dog], inr posted_msg) (anon_sends t)
  /\ get_channel env (ANONYMOUS_CHANNEL_ID env) = Some anon_ch
  /\ Some (bare_embed "hello")
     = (if str_true (content m) then Some (bare_embed (content m)) else None)
  /\ map fst (reads t) = attachments m
  /\ [dog] = payloads (reads t)
  /\ (str_true (content m) || list_true [dog])%bool = true.
Proof.
  cbv zeta.
  assert (H : In (anon_ch, Some (bare_embed "hello"),
                  [{| file_bytes := png_bytes; file_filename := "dog.png" |}],
                  inr posted_msg)
                 (anon_sends (fst (on_message picky_env
                                     (dm_from alice "hello" [cat_png; dog_png]) []))))
    by (left; reflexivity).
  split; [exact H|].
  exact (anonymous_post_content picky_env _ _ _ _ _ H).
Defined.

Lemma success_notice_means_posted_witness :
  let env := fine_env in
  let m := dm_from alice "hello" [] in
  let t := fst (on_message env m []) in
  In (prompt_msg, success_notice anon_ch, inr tt) (edits t)
  /\ (exists c e files posted, anon_sends t = [(c, e, files, inr posted)])
  /\ hd_error (edits t) = Some (prompt_msg, success_notice anon_ch, inr tt).
Proof.
  cbv zeta.
  assert (H : In (prompt_msg, success_notice anon_ch, inr tt)
                 (edits (fst (on_message fine_env (dm_from alice "hello" []) []))))
    by (left; reflexivity).
  split; [exact H|].
  exact (success_notice_means_posted fine_env _ _ _ _ H).
Defined.

Lemma on_message_raises_only_from_submitter_witness :
  let env := prompt_gone_env in
  let m := dm_from alice "hello" [] in
  snd (on_message env m []) = inl (boom NotFound)
  /\ exists ev,
       last_event (fst (on_message env m [])) = Some ev
       /\ failed_submitter_call (boom NotFound) ev.
Proof.
  cbv zeta.
  assert (H : snd (on_message prompt_gone_env (dm_from alice "hello" []) [])
              = inl (boom NotFound)) by reflexivity.
  split; [exact H|].
  exact (on_message_raises_only_from_submitter prompt_gone_env _ _ H).
Defined.

Lemma unconfirmed_is_left_alone_witness :
  let env := cancel_env in
  let m := dm_from alice "hello" [cat_png] in
  let t := fst (on_message env m []) in
  (In (Some false) (waits t) /\ Some false <> Some true)
  /\ exists prompt,
       on_message env m [] =
         ([EvAuthorSend (author m) (confirmation_text (attachments m)) true (inr prompt);
           EvWait (Some false);
           EvProcessCommands m],
          inr tt).
Proof.
  cbv zeta.
  assert (H : In (Some false)
                 (waits (fst (on_message cancel_env (dm_from alice "hello" [cat_png]) []))))
    by (left; reflexivity).
  assert (Hc : Some false <> Some true) by discriminate.
  split; [split; [exact H | exact Hc]|].
  exact (unconfirmed_is_left_alone cancel_env _ _ H Hc).
Defined.

Lemma missing_anon_channel_stops_witness :
  let env := no_anon_env in
  let m := dm_from alice "hello" [cat_png] in
  let t := fst (on_message env m []) in
  (In (Some true) (waits t) /\ get_channel env (ANONYMOUS_CHANNEL_ID env) = None)
  /\ exists prompt r,
       on_message env m [] =
         ([EvAuthorSend (author m) (confirmation_text (attachments m)) true (inr prompt);
           EvWait (Some true);
           EvPrint (anon_channel_missing_line (ANONYMOUS_CHANNEL_ID env));
           EvEdit prompt no_channel_notice false r],
          match r with inl x => inl x | inr _ => inr tt end).
Proof.
  cbv zeta.
  assert (H : In (Some true)
                 (waits (fst (on_message no_anon_env (dm_from alice "hello" [cat_png]) []))))
    by (left; reflexivity).
  assert (Hn : get_channel no_anon_env (ANONYMOUS_CHANNEL_ID no_anon_env) = None)
    by reflexivity.
  split; [split; [exact H | exact Hn]|].
  exact (missing_anon_channel_stops no_anon_env _ H Hn).
Defined.

(** ** The callbacks of the view *)

(** X11.  [on_timeout] always runs to its end: whatever the edit of the
    prompt answers, no exception leaves it, the buttons end up disabled
    and the view stopped, and the recorded choice is left as it was.  It
    edits the prompt at most once; a prompt that is gone ([NotFound]) is
    passed over in silence, any other failure of the edit is printed. *)
Theorem on_timeout_always_completes env self h :
  snd (on_timeout env self h) = inr tt
  /\ snd (fst (on_timeout env self h)) = stop (disable_children self)
  /\ confirmed_post (snd (fst (on_timeout env self h))) = confirmed_post self
  /\ fst (fst (on_timeout env self h)) =
     match view_message self with
     | None => []
     | Some prompt =>
         let r := message_edit env h prompt timed_out_notice true in
         EvEdit prompt timed_out_notice true r
         :: match r with
            | inr _ => []
            | inl e => if is_NotFound e then []
                       else [EvPrint (timeout_edit_error_line e)]
            end
     end.
Proof.
  unfold on_timeout, try_except, call, print, ret. simpl.
  destruct (view_message self) as [prompt|]; simpl; [|repeat split].
  destruct (message_edit env h prompt timed_out_notice true) as [e|[]]; simpl;
    [|repeat split].
  destruct (is_NotFound e); simpl; repeat split.
Qed.

(** X12.  A click by the author goes through to the button, and the
    button records the choice and disables the buttons before it
    acknowledges the click.  So when the acknowledgement raises, the
    exception leaves the callback with the choice already recorded and
    the view not stopped; when it goes through, the view is stopped.  The
    prompt and the original message of the view are left as they were. *)
Theorem author_click_records_choice env self it interaction h :
  user_id (interaction_user interaction) = user_id (author (original_message self)) ->
  let r := response_edit_message env h (interaction_user interaction)
             (item_notice it) in
  let v := snd (fst (scheduled_task env self it interaction h)) in
  fst (fst (scheduled_task env self it interaction h))
    = [EvResponseEdit (interaction_user interaction) (item_notice it) r]
  /\ snd (scheduled_task env self it interaction h)
     = match r with inl e => inl e | inr _ => inr tt end
  /\ confirmed_post v = Some (item_choice it)
  /\ children_disabled v = true
  /\ stopped v = (stopped self || delivered r)%bool
  /\ original_message v = original_message self
  /\ view_message v = view_message self.
Proof.
  intros Hid. cbv zeta. unfold scheduled_task, interaction_check.
  rewrite Hid, Z.eqb_refl.
  destruct it; simpl; unfold confirm_button, cancel_button; simpl;
    destruct (response_edit_message env h (interaction_user interaction) _)
      as [e|[]]; simpl; rewrite ?orb_false_r, ?orb_true_r; repeat split.
Qed.

Lemma author_click_records_choice_witness :
  let self := with_message (ConfirmationView (dm_from alice "hello" [])) prompt_msg in
  let click := {| interaction_user := alice |} in
  let v := snd (fst (scheduled_task ack_fails_env self cancel_post_anon click [])) in
  user_id (interaction_user click) = user_id (author (original_message self))
  /\ snd (scheduled_task ack_fails_env self cancel_post_anon click [])
     = inl (boom HTTPException)
  /\ confirmed_post v = Some false
  /\ stopped v = false.
Proof.
  cbv zeta.
  assert (H : user_id (interaction_user {| interaction_user := alice |})
              = user_id (author (original_message
                  (with_message (ConfirmationView (dm_from alice "hello" [])) prompt_msg))))
    by reflexivity.
  destruct (author_click_records_choice ack_fails_env _ cancel_post_anon _ [] H)
    as (_ & Hr & Hc & _ & Hs & _).
  split; [exact H|]. split; [exact Hr|]. split; [exact Hc | exact Hs].
Defined.

(** X13.  A click on 'Post Anonymously' whose acknowledgement raises,
    followed by the timeout of the view: the timeout stops the view and
    leaves the choice at [True].  The view that has shown the timeout
    notice is then one that says "post". *)
Theorem failed_confirm_then_timeout env self interaction h h' e :
  response_edit_message env h (interaction_user interaction) processing_notice
    = inl e ->
  let clicked := snd (fst (confirm_button env self interaction h)) in
  let timed_out := snd (fst (on_timeout env clicked h')) in
  snd (confirm_button env self interaction h) = inl e
  /\ stopped clicked = stopped self
  /\ snd (on_timeout env clicked h') = inr tt
  /\ stopped timed_out = true
  /\ confirmed_post timed_out = Some true.
Proof.
  intros Hack. cbv zeta.
  unfold confirm_button. rewrite Hack. simpl.
  repeat split.
  - unfold on_timeout, try_except, call, print, ret. simpl.
    destruct (view_message self) as [prompt|]; simpl; [|reflexivity].
    destruct (message_edit env h' prompt timed_out_notice true) as [x|[]]; simpl;
      [|reflexivity].
    destruct (is_NotFound x); reflexivity.
  - unfold on_timeout, try_except, call, print, ret. simpl.
    destruct (view_message self) as [prompt|]; simpl; [|reflexivity].
    destruct (message_edit env h' prompt timed_out_notice true) as [x|[]]; simpl;
      [|reflexivity].
    destruct (is_NotFound x); reflexivity.
  - unfold on_timeout, try_except, call, print, ret. simpl.
    destruct (view_message self) as [prompt|]; simpl; [|reflexivity].
    destruct (message_edit env h' prompt timed_out_notice true) as [x|[]]; simpl;
      [|reflexivity].
    destruct (is_NotFound x); reflexivity.
Qed.

Lemma failed_confirm_then_timeout_witness :
  let self := with_message (ConfirmationView (dm_from alice "hello" [])) prompt_msg in
  let click := {| interaction_user := alice |} in
  let clicked := snd (fst (confirm_button ack_fails_env self click [])) in
  let timed_out := snd (fst (on_timeout ack_fails_env clicked [])) in
  response_edit_message ack_fails_env [] (interaction_user click) processing_notice
    = inl (boom HTTPException)
  /\ snd (confirm_button ack_fails_env self click []) = inl (boom HTTPException)
  /\ stopped clicked = stopped self
  /\ snd (on_timeout ack_fails_env clicked []) = inr tt
  /\ stopped timed_out = true
  /\ confirmed_post timed_out = Some true.
Proof.
  cbv zeta.
  assert (H : response_edit_message ack_fails_env []
                (interaction_user {| interaction_user := alice |}) processing_notice
              = inl (boom HTTPException)) by reflexivity.
  split; [exact H|].
  exact (failed_confirm_then_timeout ack_fails_env _ _ [] [] _ H).
Defined.

(** ** The audit record, field by field *)

Lemma attachment_links_from_numbered atts : forall i,
  attachment_links_from i atts =
  map (fun p => "[Attachment " ++ str_nat (fst p) ++ "](" ++ att_url (snd p)
                ++ ") (`" ++ att_filename (snd p) ++ "`)")%string
      (combine (seq (i + 1) (List.length atts)) atts).
Proof.
  induction atts as [|att rest IH]; intros i; simpl; [reflexivity|].
  f_equal. rewrite IH. now replace (S i + 1) with (S (i + 1)) by lia.
Qed.

(** X14.  The links of the attachments in the audit record are numbered
    from 1 in the order of the original message, one link per attachment,
    each with the url and the file name of its attachment. *)
Theorem attachment_links_numbered atts :
  attachment_links atts =
  map (fun p => "[Attachment " ++ str_nat (fst p) ++ "](" ++ att_url (snd p)
                ++ ") (`" ++ att_filename (snd p) ++ "`)")%string
      (combine (seq 1 (List.length atts)) atts)
  /\ List.length (attachment_links atts) = List.length atts.
Proof.
  unfold attachment_links. rewrite attachment_links_from_numbered. simpl.
  split; [reflexivity|].
  rewrite length_map, length_combine, length_seq. lia.
Qed.

Lemma str_true_not_empty s : str_true s = true <-> s <> EmptyString.
Proof.
  unfold str_true. destruct (String.eqb_spec s EmptyString) as [->|Hne]; simpl.
  - split; [discriminate | intros H; now contradiction H].
  - split; auto.
Qed.

(** X15.  An audit record is always well filled: its title, colour and
    the timestamp of the original message are set, every field has a
    name and a value that is not empty (a message without text shows a
    placeholder) and is not inline, and the content field comes first.
    The record has a footer exactly when it was built without the posted
    message. *)
Theorem audit_record_is_well_filled original anon_channel posted_anon_message :
  let a := log_embed_for original anon_channel posted_anon_message in
  title a = Some "Anonymous Post Logged"
  /\ color a = Color_orange
  /\ timestamp a = Some (created_at original)
  /\ Forall (fun f => field_name f <> EmptyString
                      /\ field_value f <> EmptyString
                      /\ field_inline f = false) (fields a)
  /\ (exists text others,
        fields a = {| field_name := "Original Content"; field_value := text;
                      field_inline := false |} :: others
        /\ (content original <> EmptyString -> text = content original))
  /\ (footer a = None <-> posted_anon_message <> None).
Proof.
  cbv zeta. unfold log_embed_for.
  assert (Hc : (if str_true (content original) then content original
                else "*(No text content)*") <> EmptyString).
  { destruct (str_true (content original)) eqn:E; [|discriminate].
    now apply str_true_not_empty. }
  assert (Hl : forall a rest, join newline (attachment_links (a :: rest)) <> EmptyString).
  { intros a rest. unfold attachment_links, join. simpl.
    destruct (attachment_links_from 1 rest); simpl; discriminate. }
  destruct (attachments original) as [|att rest]; destruct posted_anon_message as [posted|];
    simpl; repeat split; try discriminate; try congruence.
  all: try (repeat constructor; simpl; try discriminate; try assumption; try apply Hl; fail).
  all: try (eexists _, _; split; [reflexivity|];
            intros Hne; apply str_true_not_empty in Hne; now rewrite Hne).
  all: try (intros H; now contradiction H).
Qed.

(** ** Start-up *)

(** With a decimal [int]: a complete configuration starts the bot; a
    channel id that is no number ends it with the line that quotes the
    value; a missing token is what is reported first. *)
Example startup_runs :
  startup decimal (Some "secret") (Some "10") (Some "20")
    = inr {| cfg_token := "secret"; cfg_anonymous_channel_id := 10;
             cfg_mod_log_channel_id := 20 |}
  /\ startup decimal (Some "secret") (Some "ten") (Some "20")
     = inl "CRITICAL: Invalid ANONYMOUS_CHANNEL_ID 'ten'. Must be an integer."
  /\ startup decimal None (Some "ten") None
     = inl "CRITICAL: DISCORD_TOKEN not found in .env".
Proof. repeat split. Qed.

(** X16.  The bot gets past its start-up checks exactly when the token
    and both channel ids are set and not empty and both ids convert to
    integers; it then runs with the token as given and the two converted
    ids.  In every other case it prints a line and exits. *)
Theorem startup_succeeds_iff int token anon mod_log cfg :
  startup int token anon mod_log = inr cfg
  <-> exists anon_text mod_text,
        token = Some (cfg_token cfg) /\ cfg_token cfg <> EmptyString
        /\ anon = Some anon_text /\ anon_text <> EmptyString
        /\ int anon_text = Some (cfg_anonymous_channel_id cfg)
        /\ mod_log = Some mod_text /\ mod_text <> EmptyString
        /\ int mod_text = Some (cfg_mod_log_channel_id cfg).
Proof.
  unfold startup, load_channel_id. split.
  - destruct token as [tok|]; [|discriminate].
    destruct (str_true tok) eqn:Et; [|discriminate].
    destruct anon as [sa|]; [|discriminate].
    destruct (str_true sa) eqn:Ea; [|discriminate].
    destruct (int sa) as [ia|] eqn:Eia; [|discriminate].
    destruct mod_log as [sm|]; [|discriminate].
    destruct (str_true sm) eqn:Em; [|discriminate].
    destruct (int sm) as [im|] eqn:Eim; [|discriminate].
    intros H. inversion H; subst; clear H. simpl.
    exists sa, sm. repeat split; try assumption; now apply str_true_not_empty.
  - intros (sa & sm & -> & Ht & -> & Ha & Hia & -> & Hm & Him).
    apply str_true_not_empty in Ht, Ha, Hm.
    rewrite Ht, Ha, Hia, Hm, Him. now destruct cfg.
Qed.

(** ** Two more things no run does *)

Lemma str_true_false_empty s : str_true s = false -> s = EmptyString.
Proof.
  unfold str_true. destruct (String.eqb_spec s EmptyString); [auto | discriminate].
Qed.

(** X17.  An audit record is sent only after the submitter has been told
    of the success: when a run sends one, the first edit of the prompt
    was the success notice and went through, the record goes to the
    channel configured for the moderators, and it is the only audit
    record of the run. *)
Theorem audit_follows_success_notice env m mod_channel a r :
  let t := fst (on_message env m []) in
  In (mod_channel, a, r) (mod_log_sends t) ->
  get_channel env (MOD_LOG_CHANNEL_ID env) = Some mod_channel
  /\ mod_log_sends t = [(mod_channel, a, r)]
  /\ exists prompt ch,
       hd_error (edits t) = Some (prompt, success_notice ch, inr tt)
       /\ get_channel env (ANONYMOUS_CHANNEL_ID env) = Some ch.
Proof.
  run_on_message.
  all: intros H; read_more.
  all: try contradiction; try discriminate.
  all: destruct H as [H|[]]; inversion H; subst; clear H.
  all: repeat match goal with u : unit |- _ => destruct u end.
  all: (split; [reflexivity|]); (split; [reflexivity|]);
       eexists _, _; split; reflexivity.
Qed.

Lemma audit_follows_success_notice_witness :
  let env := fine_env in
  let m := dm_from alice "hello" [] in
  let t := fst (on_message env m []) in
  In (mod_ch, log_embed_for m anon_ch (Some posted_msg), inr posted_msg)
     (mod_log_sends t)
  /\ get_channel env (MOD_LOG_CHANNEL_ID env) = Some mod_ch
  /\ mod_log_sends t
     = [(mod_ch, log_embed_for m anon_ch (Some posted_msg), inr posted_msg)]
  /\ exists prompt ch,
       hd_error (edits t) = Some (prompt, success_notice ch, inr tt)
       /\ get_channel env (ANONYMOUS_CHANNEL_ID env) = Some ch.
Proof.
  cbv zeta.
  assert (H : In (mod_ch,
                  log_embed_for (dm_from alice "hello" []) anon_ch (Some posted_msg),
                  inr posted_msg)
                 (mod_log_sends (fst (on_message fine_env
                                        (dm_from alice "hello" []) []))))
    by (left; reflexivity).
  split; [exact H|].
  exact (audit_follows_success_notice fine_env _ _ _ _ H).
Defined.

(** X18.  The notice that nothing was posted is given only when there
    was nothing to post: the text is empty, every attachment was tried
    and none could be read.  After it, nothing is sent to either channel
    and the command processor is not called. *)
Theorem nothing_posted_means_nothing_to_post env m prompt text r :
  let t := fst (on_message env m []) in
  In (prompt, text, r) (edits t) ->
  text = nothing_posted_notice ->
  content m = EmptyString
  /\ map fst (reads t) = attachments m
  /\ payloads (reads t) = []
  /\ anon_sends t = []
  /\ mod_log_sends t = []
  /\ commands t = [].
Proof.
  run_on_message; loop_outcome.
  all: intros H Htext; read_more.
  all: try contradiction.
  all: repeat match goal with
       | H : _ \/ _ |- _ => destruct H as [H|H]
       | H : False |- _ => contradiction H
       | H : (_, _, _) = (_, _, _) |- _ => inversion H; subst; clear H
       end.
  all: try discriminate.
  all: try match goal with
       | H : success_notice _ = _ |- _ =>
           apply (f_equal is_failure_notice) in H;
           rewrite success_notice_is_not_failure in H; discriminate H
       end.
  all: try match goal with
       | H : failure_notice ?e = _ |- _ =>
           unfold failure_notice in H;
           destruct (is_Forbidden e); [discriminate H|];
           destruct (is_HTTPException e); discriminate H
       end.
  all: repeat match goal with H : _ /\ _ |- _ => destruct H end.
  all: repeat match goal with
       | H : negb _ && negb _ = true |- _ =>
           let Ha := fresh "Ha" in
           let Hb := fresh "Hb" in
           apply andb_prop in H; destruct H as [Ha Hb];
           apply negb_true_iff in Ha; apply negb_true_iff in Hb
       end.
  all: try match goal with
       | H : list_true ?l = false, H' : ?l = payloads _ |- _ =>
           destruct l; [|discriminate H]
       end.
  all: try match goal with
       | H : list_true (attachments ?m) = false |- _ =>
           destruct (attachments m); [|discriminate H]
       end.
  all: repeat split; auto using str_true_false_empty.
  all: congruence.
Qed.

Lemma nothing_posted_means_nothing_to_post_witness :
  let env := unreadable_env in
  let m := dm_from alice EmptyString [cat_png] in
  let t := fst (on_message env m []) in
  (In (prompt_msg, nothing_posted_notice, inr tt) (edits t)
   /\ nothing_posted_notice = nothing_posted_notice)
  /\ content m = EmptyString
  /\ map fst (reads t) = attachments m
  /\ payloads (reads t) = []
  /\ anon_sends t = []
  /\ mod_log_sends t = []
  /\ commands t = [].
Proof.
  cbv zeta.
  assert (H : In (prompt_msg, nothing_posted_notice, inr tt)
                 (edits (fst (on_message unreadable_env
                                (dm_from alice EmptyString [cat_png]) []))))
    by (left; reflexivity).
  split; [split; [exact H | reflexivity]|].
  exact (nothing_posted_means_nothing_to_post unreadable_env _ _ _ _ H eq_refl).
Defined.

(** ** Decide and expire *)

Lemma session_stopped env self evs : forall h,
  stopped self = true -> session env self evs h = ([], self, []).
Proof.
  intros h Hs. induction evs as [|ev rest IH]; simpl; [reflexivity|].
  unfold accepts. rewrite Hs. simpl. exact IH.
Qed.

Lemma deliver_click_stops env self it interaction h :
  interaction_check self interaction = true ->
  response_edit_message env h (interaction_user interaction) (item_notice it)
    = inr tt ->
  stopped (snd (fst (deliver env self (Click it interaction) h))) = true.
Proof.
  intros Hc Hack. simpl. unfold scheduled_task. rewrite Hc.
  destruct it; simpl in *; unfold confirm_button, cancel_button;
    rewrite Hack; reflexivity.
Qed.

Lemma deliver_timer_stops env self h :
  stopped (snd (fst (deliver env self TimerFired h))) = true.
Proof.
  simpl. unfold on_timeout, try_except, call, print, ret. simpl.
  destruct (view_message self) as [prompt|]; simpl; [|reflexivity].
  destruct (message_edit env h prompt timed_out_notice true) as [e|[]]; simpl;
    [|reflexivity].
  destruct (is_NotFound e); reflexivity.
Qed.



